(** * Unit-Test-Agent front end: a shallow embedding and its properties

    The React front end of the AI unit testing agent is embedded component
    by component: the progress tracker (phase table and phase
    classification), the analysis form (validation rules, request
    construction), the status page (polling), the results page (download
    names, per-language counts) and the error-message derivation shared by
    the three pages.

    JavaScript strings are [string]; JavaScript numbers are rationals [Q]
    where a fraction can reach the code (the progress percentage, the
    number read from a number field) and, where the code produces
    integers ([parseInt], sums of counts), integers rounded to the
    nearest double. *)

From Stdlib Require Import ZArith QArith List String Ascii Bool Lia Lqa.
Set Warnings "-register-all".
Import ListNotations.
Open Scope string_scope.

(** ** Part I: the embedding *)

(** *** JavaScript values and the built-ins the pages call *)

Module Js.

(** The values a parsed JSON body, or a missing one, can be.  Numbers are
    kept to the integers. *)
Inductive Value :=
| Undefined
| Null
| Bool (b : bool)
| Number (n : Z)
| Str (s : string)
| Array (elems : list Value)
| Object (props : list (string * Value)).

(** A number that is NaN, an integer or an infinity: what [parseInt] and
    sums of integers yield. *)
Inductive Num := NaN | Int (n : Z) | Inf (negative : bool).

(** An expression either yields a value or throws. *)
Inductive Completion (A : Type) :=
| Normal (a : A)
| Throw (exn : string).
Arguments Normal {A} a.
Arguments Throw {A} exn.

Definition bind {A B} (c : Completion A) (k : A -> Completion B)
  : Completion B :=
  match c with
  | Normal a => k a
  | Throw e => Throw e
  end.

Fixpoint mapM {A B} (f : A -> Completion B) (l : list A)
  : Completion (list B) :=
  match l with
  | [] => Normal []
  | x :: r => bind (f x) (fun y => bind (mapM f r) (fun ys => Normal (y :: ys)))
  end.

(** ToBoolean *)
Definition truthy (v : Value) : bool :=
  match v with
  | Undefined | Null => false
  | Bool b => b
  | Number n => negb (n =? 0)%Z
  | Str s => negb (s =? "")
  | Array _ | Object _ => true
  end.

(** [a || b] *)
Definition orElse (a b : Value) : Value := if truthy a then a else b.

(** [typeof v === 'string'] and [Array.isArray(v)] *)
Definition isString (v : Value) : bool :=
  match v with Str _ => true | _ => false end.

Definition isArray (v : Value) : bool :=
  match v with Array _ => true | _ => false end.

Fixpoint lookup (k : string) (props : list (string * Value)) : Value :=
  match props with
  | [] => Undefined
  | (k', v) :: r => if k' =? k then v else lookup k r
  end.

(** [v.k] for the property names the pages read ([detail], [message],
    [msg]): a TypeError on [undefined] and [null], the property of an
    object, [undefined] on every other value. *)
Definition get (v : Value) (k : string) : Completion Value :=
  match v with
  | Undefined | Null => Throw "TypeError"
  | Object props => Normal (lookup k props)
  | _ => Normal Undefined
  end.

(** Decimal digits of a non-negative integer, most significant first. *)
Definition digitChar (d : Z) : ascii := ascii_of_nat (48 + Z.to_nat d).

Fixpoint digits (fuel : nat) (n : Z) (acc : string) : string :=
  match fuel with
  | O => acc
  | S f =>
      let acc' := String (digitChar (n mod 10)) acc in
      if (n / 10 =? 0)%Z then acc' else digits f (n / 10) acc'
  end.

(** Number-to-string on integers. *)
Definition string_of_Z (n : Z) : string :=
  if (n <? 0)%Z
  then String "-" (digits (S (Z.to_nat (Z.log2 (- n)))) (- n) "")
  else digits (S (Z.to_nat (Z.log2 n))) n "".

(** ToString; [Array.prototype.join] renders [undefined] and [null]
    elements as the empty string. *)
Fixpoint ToString (v : Value) : string :=
  match v with
  | Undefined => "undefined"
  | Null => "null"
  | Bool true => "true"
  | Bool false => "false"
  | Number n => string_of_Z n
  | Str s => s
  | Array l =>
      String.concat ","
        (map (fun x => match x with
                       | Undefined | Null => ""
                       | _ => ToString x
                       end) l)
  | Object _ => "[object Object]"
  end.

Definition join (sep : string) (l : list Value) : string :=
  String.concat sep
    (map (fun x => match x with
                   | Undefined | Null => ""
                   | _ => ToString x
                   end) l).

(** [JSON.stringify]: string quoting. *)
Definition hexChar (d : nat) : ascii :=
  if (d <? 10)%nat then ascii_of_nat (48 + d) else ascii_of_nat (87 + d).

Definition dquote : ascii := ascii_of_nat 34.
Definition backslash : ascii := ascii_of_nat 92.

Definition escapeChar (c : ascii) : string :=
  let n := nat_of_ascii c in
  if (n =? 34)%nat then String backslash (String dquote "")
  else if (n =? 92)%nat then String backslash (String backslash "")
  else if (n =? 8)%nat then String backslash "b"
  else if (n =? 9)%nat then String backslash "t"
  else if (n =? 10)%nat then String backslash "n"
  else if (n =? 12)%nat then String backslash "f"
  else if (n =? 13)%nat then String backslash "r"
  else if (n <? 32)%nat
       then String backslash
              ("u00" ++ String (hexChar (n / 16))
                          (String (hexChar (n mod 16)) ""))
  else String c "".

Fixpoint escape (s : string) : string :=
  match s with
  | EmptyString => ""
  | String c r => escapeChar c ++ escape r
  end.

Definition quote (s : string) : string :=
  String dquote (escape s ++ String dquote "").

(** [JSON.stringify(v)]; [None] is the [undefined] it returns for
    [undefined].  In an array [undefined] is written [null]; in an object
    a property whose value is [undefined] is left out. *)
Fixpoint stringify (v : Value) : option string :=
  match v with
  | Undefined => None
  | Null => Some "null"
  | Bool true => Some "true"
  | Bool false => Some "false"
  | Number n => Some (string_of_Z n)
  | Str s => Some (quote s)
  | Array l =>
      Some ("[" ++ String.concat ","
                     (map (fun x => match stringify x with
                                    | Some t => t
                                    | None => "null"
                                    end) l) ++ "]")
  | Object props =>
      Some ("{" ++ String.concat ","
                     (flat_map
                        (fun kv => match stringify (snd kv) with
                                   | Some t => [quote (fst kv) ++ ":" ++ t]
                                   | None => []
                                   end) props) ++ "}")
  end.

(** The double nearest to an integer, ties to even: integers below 2^53
    in magnitude are doubles; from there on the doubles between
    [2^(52+e)] and [2^(53+e)] are the multiples of [2^e]. *)
Definition roundInteger (n : Z) : Z :=
  let a := Z.abs n in
  if (a <? 2 ^ 53)%Z then n
  else
    let e := (Z.log2 a - 52)%Z in
    let q := (a / 2 ^ e)%Z in
    let r := (a mod 2 ^ e)%Z in
    let half := (2 ^ (e - 1))%Z in
    let q' := if (r <? half)%Z then q
              else if (half <? r)%Z then (q + 1)%Z
              else if Z.even q then q else (q + 1)%Z in
    (Z.sgn n * (q' * 2 ^ e))%Z.

(** The number an integer becomes: its nearest double, an infinity when
    that is out of range. *)
Definition toNum (n : Z) : Num :=
  let m := roundInteger n in
  if (Z.abs m <? 2 ^ 1024)%Z then Int m else Inf (n <? 0)%Z.


(** [parseInt(s)] without a radix. *)
Definition isWhiteSpace (c : ascii) : bool :=
  let n := nat_of_ascii c in
  ((9 <=? n) && (n <=? 13) || (n =? 32))%nat.

Fixpoint trimStart (s : string) : string :=
  match s with
  | EmptyString => ""
  | String c r => if isWhiteSpace c then trimStart r else s
  end.

Definition digitValue (radix : Z) (c : ascii) : option Z :=
  let n := Z.of_nat (nat_of_ascii c) in
  let v := if ((48 <=? n) && (n <=? 57))%Z then Some (n - 48)%Z
           else if ((97 <=? n) && (n <=? 122))%Z then Some (n - 87)%Z
           else if ((65 <=? n) && (n <=? 90))%Z then Some (n - 55)%Z
           else None in
  match v with
  | Some d => if (d <? radix)%Z then Some d else None
  | None => None
  end.

(** The longest prefix of digits, read left to right; [None] while no
    digit has been read. *)
Fixpoint parseDigits (radix : Z) (acc : option Z) (s : string) : option Z :=
  match s with
  | EmptyString => acc
  | String c r =>
      match digitValue radix c with
      | Some d =>
          parseDigits radix
            (Some (match acc with Some a => a * radix + d | None => d end)%Z) r
      | None => acc
      end
  end.

Definition parseInt (s : string) : Num :=
  let s1 := trimStart s in
  let '(sign, s2) :=
    match s1 with
    | String "-" r => ((-1)%Z, r)
    | String "+" r => (1%Z, r)
    | _ => (1%Z, s1)
    end in
  let '(radix, s3) :=
    match s2 with
    | String "0" (String "x" r) => (16%Z, r)
    | String "0" (String "X" r) => (16%Z, r)
    | _ => (10%Z, s2)
    end in
  match parseDigits radix None s3 with
  | Some m => toNum (sign * m)
  | None => NaN
  end.

(** [n || d] on numbers: NaN and 0 are falsy. *)
Definition orNum (n d : Num) : Num :=
  match n with
  | NaN => d
  | Int z => if (z =? 0)%Z then d else n
  | Inf _ => n
  end.

(** A decimal digit, and the accumulator of [parseDigits] once [k] more
    digits worth [n] have been read. *)
Definition isDigit (c : ascii) : bool :=
  let n := nat_of_ascii c in ((48 <=? n) && (n <=? 57))%nat.

Definition shifted (a : option Z) (k n : Z) : Z :=
  match a with
  | Some x => (x * 10 ^ k + n)%Z
  | None => n
  end.

(** ToString of a possibly [undefined] string. *)
Definition ToString_opt (v : option string) : string :=
  match v with
  | None => "undefined"
  | Some s => s
  end.

End Js.

(** *** Regular expressions of the validation rules *)

Module RegExp.

Inductive regex :=
| Void
| Eps
| Class (p : ascii -> bool)
| Cat (r1 r2 : regex)
| Alt (r1 r2 : regex)
| Star (r : regex).

Definition Chr (c : ascii) : regex := Class (Ascii.eqb c).
Definition Plus (r : regex) : regex := Cat r (Star r).

Fixpoint Lit (s : string) : regex :=
  match s with
  | EmptyString => Eps
  | String c r => Cat (Chr c) (Lit r)
  end.

Fixpoint nullable (r : regex) : bool :=
  match r with
  | Void => false
  | Eps => true
  | Class _ => false
  | Cat r1 r2 => nullable r1 && nullable r2
  | Alt r1 r2 => nullable r1 || nullable r2
  | Star _ => true
  end.

Fixpoint deriv (c : ascii) (r : regex) : regex :=
  match r with
  | Void => Void
  | Eps => Void
  | Class p => if p c then Eps else Void
  | Cat r1 r2 =>
      if nullable r1
      then Alt (Cat (deriv c r1) r2) (deriv c r2)
      else Cat (deriv c r1) r2
  | Alt r1 r2 => Alt (deriv c r1) (deriv c r2)
  | Star r1 => Cat (deriv c r1) (Star r1)
  end.

(** [/^r$/.test(s)]: the whole of [s] is in the language of [r]. *)
Fixpoint test (r : regex) (s : string) : bool :=
  match s with
  | EmptyString => nullable r
  | String c s' => test (deriv c r) s'
  end.

(** Every character of [s] is in the class [p]. *)
Fixpoint allChars (p : ascii -> bool) (s : string) : bool :=
  match s with
  | EmptyString => true
  | String c r => p c && allChars p r
  end.

(** The language of a regular expression. *)
Inductive Matches : regex -> string -> Prop :=
| MEps : Matches Eps ""
| MClass p c : p c = true -> Matches (Class p) (String c "")
| MCat r1 r2 s1 s2 :
    Matches r1 s1 -> Matches r2 s2 -> Matches (Cat r1 r2) (s1 ++ s2)
| MAltL r1 r2 s : Matches r1 s -> Matches (Alt r1 r2) s
| MAltR r1 r2 s : Matches r2 s -> Matches (Alt r1 r2) s
| MStar0 r : Matches (Star r) ""
| MStarS r s1 s2 :
    Matches r s1 -> Matches (Star r) s2 -> Matches (Star r) (s1 ++ s2).

End RegExp.

(** *** The error message shown for a failed request

    The same cascade is written out in AnalysisForm.js (onSubmit's catch),
    AnalysisPage.js and ResultsPage.js; only the default text differs. *)

Module ErrorMessage.
Import Js.

(** The error a rejected request carries: [response_data] is
    [error.response.data] when there is a response ([None] when
    [error.response] is undefined), [message] is [error.message]. *)
Record JsError := {
  response_data : option Value;
  message : Value
}.

(** [error.response?.data] *)
Definition responseData (error : JsError) : Value :=
  match response_data error with
  | Some d => d
  | None => Undefined
  end.

(** [typeof err === 'string' ? err : err.msg || 'Validation error'] *)
Definition elementMessage (err : Value) : Completion Value :=
  if isString err then Normal err
  else bind (get err "msg")
         (fun m => Normal (orElse m (Str "Validation error"))).

Definition deriveErrorMessage (default : string) (error : JsError)
  : Completion Value :=
  let data := responseData error in
  if truthy data then
    if isString data then Normal data
    else
      bind (get data "detail") (fun detail =>
      if truthy detail then Normal detail
      else
        bind (get data "message") (fun msg =>
        if truthy msg then Normal msg
        else
          match data with
          | Array elems =>
              bind (mapM elementMessage elems)
                (fun msgs => Normal (Str (join ", " msgs)))
          | _ =>
              Normal (match stringify data with
                      | Some t => Str t
                      | None => Undefined
                      end)
          end))
  else if truthy (message error) then Normal (message error)
  else Normal (Str default).

(** An error whose text positions hold text: [detail] and [message] of
    an object body, and [error.message], are strings or falsy, and an
    array body has no [null] element. *)
Definition textOrFalsy (v : Value) : bool := isString v || negb (truthy v).

Definition notNullish (v : Value) : bool :=
  match v with
  | Undefined | Null => false
  | _ => true
  end.

Definition textualBody (data : Value) : bool :=
  match data with
  | Object props =>
      textOrFalsy (lookup "detail" props)
      && textOrFalsy (lookup "message" props)
  | Array elems => forallb notNullish elems
  | _ => true
  end.

(** The body of a 422 answer: [detail] is a list of validation errors. *)
Definition validationErrorBody : Value :=
  Object [("detail",
           Array [Object [("loc", Array [Str "body"; Str "repository_url"]);
                          ("msg", Str "field required");
                          ("type", Str "value_error.missing")]])].

Definition validationError : JsError :=
  {| response_data := Some validationErrorBody;
     message := Str "Request failed with status code 422" |}.

(** The text an element of an array body stands for: a string for
    itself, an object for its [msg] when that is a non-empty string, and
    for the fixed text when its [msg] is missing or falsy. *)
Inductive hasText : Value -> string -> Prop :=
| TextString t : hasText (Str t) t
| TextMsg props t :
    lookup "msg" props = Str t -> t <> "" -> hasText (Object props) t
| TextNoMsg props :
    truthy (lookup "msg" props) = false ->
    hasText (Object props) "Validation error".

End ErrorMessage.

(** *** components/AnalysisForm.js *)

Module AnalysisForm.
Import Js RegExp ErrorMessage.

(** What an [<input type="number">] holds: nothing; the decimal text of
    an integer; or any other text the field accepts, such as [1e2] or
    [0.5], together with the number the browser reads from it. *)
Inductive NumberInput :=
| Blank
| Entered (n : Z)
| Typed (text : string) (number : Q).

Definition inputValue (v : NumberInput) : string :=
  match v with
  | Blank => ""
  | Entered n => string_of_Z n
  | Typed text _ => text
  end.

Definition valueAsNumber (v : NumberInput) : option Q :=
  match v with
  | Blank => None
  | Entered n => Some (inject_Z n)
  | Typed _ number => Some number
  end.

(** [a < b] on numbers *)
Definition ltQ (a b : Q) : bool := negb (Qle_bool b a).

(** The options given to [register]; a rule is a value and its message. *)
Record RegisterOptions := {
  required : option string;
  pattern : option (regex * string);
  min : option (Z * string);
  max : option (Z * string)
}.

Definition notSlash (c : ascii) : bool := negb (Ascii.eqb c "/").

Definition alphanumeric (c : ascii) : bool :=
  let n := nat_of_ascii c in
  ((97 <=? n) && (n <=? 122) || (65 <=? n) && (n <=? 90)
   || (48 <=? n) && (n <=? 57))%nat.

(** [/^https:\/\/github\.com\/[^/]+\/[^/]+$/] *)
Definition repositoryUrlPattern : regex :=
  Cat (Lit "https://github.com/")
    (Cat (Plus (Class notSlash)) (Cat (Chr "/") (Plus (Class notSlash)))).

(** [/^sk-or-v1-[a-zA-Z0-9]+$/] *)
Definition apiKeyPattern : regex :=
  Cat (Lit "sk-or-v1-") (Plus (Class alphanumeric)).

Definition repositoryUrlOptions : RegisterOptions :=
  {| required := Some "Repository URL is required";
     pattern := Some (repositoryUrlPattern,
                      "Please enter a valid GitHub repository URL");
     min := None; max := None |}.

Definition apiKeyOptions : RegisterOptions :=
  {| required := Some "API key is required";
     pattern := Some (apiKeyPattern, "Please enter a valid OpenRouter API key");
     min := None; max := None |}.

Definition targetCoverageOptions : RegisterOptions :=
  {| required := None; pattern := None;
     min := Some (0%Z, "Coverage must be at least 0%");
     max := Some (100%Z, "Coverage must be at most 100%") |}.

Definition maxFilesOptions : RegisterOptions :=
  {| required := None; pattern := None;
     min := Some (1%Z, "Max files must be at least 1");
     max := None |}.

(** The form library's check of one field, for the rules used here: an
    empty field fails only [required]; otherwise the number is held
    against [max] and [min], then the text against [pattern].  The result
    is the message of the first rule that fails. *)
Definition exceeds (bound : option (Z * string)) (above : bool)
  (n : option Q) : option string :=
  match bound, n with
  | Some (b, msg), Some v =>
      if (if above then ltQ (inject_Z b) v else ltQ v (inject_Z b))
      then Some msg else None
  | _, _ => None
  end.

Definition validateField (o : RegisterOptions) (value : string)
  (asNumber : option Q) : option string :=
  if value =? "" then required o
  else
    match exceeds (max o) true asNumber with
    | Some msg => Some msg
    | None =>
        match exceeds (min o) false asNumber with
        | Some msg => Some msg
        | None =>
            match pattern o with
            | Some (r, msg) => if test r value then None else Some msg
            | None => None
            end
        end
    end.

(** The inputs of the advanced section; they are rendered, and so
    registered, only when the section is open.  A form has them as
    [advancedInputs] while the section is open, and as [hiddenInputs]
    once it has been opened and closed again: the form library keeps the
    values of fields that are no longer rendered, and does not validate
    them.  Neither is there while the section has never been opened. *)
Record AdvancedInputs := {
  includeDependenciesChecked : bool;
  generateMocksChecked : bool;
  targetCoverageInput : NumberInput;
  maxFilesInput : NumberInput
}.

Record FormInputs := {
  repositoryUrlInput : string;
  apiKeyInput : string;
  advancedInputs : option AdvancedInputs;
  hiddenInputs : option AdvancedInputs
}.

(** The advanced fields the form library holds values for. *)
Definition registeredInputs (i : FormInputs) : option AdvancedInputs :=
  match advancedInputs i with
  | Some a => Some a
  | None => hiddenInputs i
  end.

(** The [data] object [handleSubmit] passes to [onSubmit]; [None] is the
    [undefined] of a field that is not registered. *)
Record FormData := {
  repositoryUrl : string;
  apiKey : string;
  includeDependencies : option bool;
  generateMocks : option bool;
  targetCoverage : option string;
  maxFiles : option string
}.

Definition collect (i : FormInputs) : FormData :=
  {| repositoryUrl := repositoryUrlInput i;
     apiKey := apiKeyInput i;
     includeDependencies :=
       option_map includeDependenciesChecked (registeredInputs i);
     generateMocks := option_map generateMocksChecked (registeredInputs i);
     targetCoverage :=
       option_map (fun a => inputValue (targetCoverageInput a))
         (registeredInputs i);
     maxFiles :=
       option_map (fun a => inputValue (maxFilesInput a))
         (registeredInputs i) |}.

(** [formState.errors] *)
Record FormErrors := {
  repositoryUrlError : option string;
  apiKeyError : option string;
  targetCoverageError : option string;
  maxFilesError : option string
}.

Definition validate (i : FormInputs) : FormErrors :=
  {| repositoryUrlError :=
       validateField repositoryUrlOptions (repositoryUrlInput i) None;
     apiKeyError := validateField apiKeyOptions (apiKeyInput i) None;
     targetCoverageError :=
       match advancedInputs i with
       | Some a => validateField targetCoverageOptions
                     (inputValue (targetCoverageInput a))
                     (valueAsNumber (targetCoverageInput a))
       | None => None
       end;
     maxFilesError :=
       match advancedInputs i with
       | Some a => validateField maxFilesOptions
                     (inputValue (maxFilesInput a))
                     (valueAsNumber (maxFilesInput a))
       | None => None
       end |}.

Definition isNone {A} (o : option A) : bool :=
  match o with None => true | Some _ => false end.

Definition noErrors (e : FormErrors) : bool :=
  isNone (repositoryUrlError e) && isNone (apiKeyError e)
  && isNone (targetCoverageError e) && isNone (maxFilesError e).

(** The body of the POST to [/analyze]; [max_files = None] is [null]. *)
Record AnalysisRequest := {
  repository_url : string;
  api_key : string;
  include_dependencies : bool;
  generate_mocks : bool;
  target_coverage : Num;
  max_files : option Num
}.

(** [Boolean(v)] of a checkbox value *)
Definition Boolean (v : option bool) : bool :=
  match v with
  | Some b => b
  | None => false
  end.

(** Truthiness of a possibly [undefined] string *)
Definition truthyText (v : option string) : bool :=
  match v with
  | Some s => negb (s =? "")
  | None => false
  end.

Definition buildRequest (data : FormData) : AnalysisRequest :=
  {| repository_url := repositoryUrl data;
     api_key := apiKey data;
     include_dependencies := Boolean (includeDependencies data);
     generate_mocks := Boolean (generateMocks data);
     target_coverage :=
       orNum (parseInt (ToString_opt (targetCoverage data))) (Int 80);
     max_files :=
       if truthyText (maxFiles data)
       then Some (parseInt (ToString_opt (maxFiles data)))
       else None |}.

(** What the server answers to the POST. *)
Inductive Reply :=
| Resolved (task_id : string)
| Rejected (error : JsError).

Inductive Event :=
| SetIsLoading (b : bool)
| Post (path : string) (body : AnalysisRequest)
| ToastSuccess (text : string)
| ToastError (text : Value)
| ConsoleError
| Navigate (path : string)
| Uncaught (exn : string).

Definition onSubmit (server : AnalysisRequest -> Reply) (data : FormData)
  : list Event :=
  let request := buildRequest data in
  [SetIsLoading true; Post "/analyze" request]
  ++ match server request with
     | Resolved task_id =>
         [ToastSuccess "Analysis started successfully!";
          Navigate ("/analysis/" ++ task_id);
          SetIsLoading false]
     | Rejected error =>
         ConsoleError ::
         match deriveErrorMessage "Failed to start analysis" error with
         | Normal text => [ToastError text; SetIsLoading false]
         | Throw exn => [SetIsLoading false; Uncaught exn]
         end
     end.

(** [handleSubmit(onSubmit)]: the registered fields are validated, and
    [onSubmit] runs only when none of them has an error. *)
Inductive Submission :=
| ValidationFailed (errors : FormErrors)
| Submitted (events : list Event).

Definition handleSubmit (server : AnalysisRequest -> Reply) (i : FormInputs)
  : Submission :=
  let errors := validate i in
  if noErrors errors then Submitted (onSubmit server (collect i))
  else ValidationFailed errors.

(** The requests a submission sent. *)
Definition posted (e : Event) : option AnalysisRequest :=
  match e with
  | Post _ body => Some body
  | _ => None
  end.

Fixpoint omap {A B} (f : A -> option B) (l : list A) : list B :=
  match l with
  | [] => []
  | x :: r => match f x with
              | Some y => y :: omap f r
              | None => omap f r
              end
  end.

Definition requestsOf (s : Submission) : list AnalysisRequest :=
  match s with
  | ValidationFailed _ => []
  | Submitted events => omap posted events
  end.

(** A well-formed repository address: [https://github.com/], an owner, a
    slash and a repository name, the two names non-empty and free of
    slashes. *)
Definition segment (s : string) : Prop :=
  s <> "" /\ allChars notSlash s = true.

Definition GitHubRepositoryUrl (url : string) : Prop :=
  exists owner repo,
    url = "https://github.com/" ++ owner ++ "/" ++ repo
    /\ segment owner /\ segment repo.

(** A form filled in with a target coverage of 0. *)
Definition zeroCoverageForm : FormInputs :=
  {| repositoryUrlInput := "https://github.com/octocat/hello";
     apiKeyInput := "sk-or-v1-abc123";
     advancedInputs :=
       Some {| includeDependenciesChecked := true;
               generateMocksChecked := true;
               targetCoverageInput := Entered 0;
               maxFilesInput := Blank |};
     hiddenInputs := None |}.

(** A well-formed API key: [sk-or-v1-] and then letters and digits, at
    least one. *)
Definition OpenRouterKey (key : string) : Prop :=
  exists suffix,
    key = "sk-or-v1-" ++ suffix
    /\ suffix <> "" /\ allChars alphanumeric suffix = true.

(** The number of occurrences of a character. *)
Fixpoint countChar (c : ascii) (s : string) : nat :=
  match s with
  | EmptyString => 0
  | String x r => (if Ascii.eqb x c then 1 else 0) + countChar c r
  end.

(** The [isLoading] state a list of events leaves ([None]: untouched),
    and the paths navigated to. *)
Definition loadingAfter (events : list Event) : option bool :=
  fold_left (fun st e => match e with
                         | SetIsLoading b => Some b
                         | _ => st
                         end) events None.

Definition navigationsOf (events : list Event) : list string :=
  flat_map (fun e => match e with Navigate path => [path] | _ => [] end)
    events.

Definition isErrorToast (e : Event) : bool :=
  match e with ToastError _ => true | _ => false end.

(** A form with the advanced section open and filled in. *)
Definition filledForm : FormInputs :=
  {| repositoryUrlInput := "https://github.com/octocat/hello";
     apiKeyInput := "sk-or-v1-abc123";
     advancedInputs :=
       Some {| includeDependenciesChecked := true;
               generateMocksChecked := false;
               targetCoverageInput := Entered 75;
               maxFilesInput := Entered 10 |};
     hiddenInputs := None |}.

(** What the request carries for the two number fields, by what the
    field holds. *)
Definition coverageSent (v : NumberInput) : Num :=
  match v with
  | Blank => Int 80
  | Entered n => orNum (toNum n) (Int 80)
  | Typed text _ => orNum (parseInt text) (Int 80)
  end.

Definition maxFilesSent (v : NumberInput) : option Num :=
  match v with
  | Blank => None
  | Entered n => Some (toNum n)
  | Typed text _ => if text =? "" then None else Some (parseInt text)
  end.

(** A form whose advanced section is open, with [1e2] typed as target
    coverage and [0.9e1] as maximum of files; and a form whose section
    was closed again after 150 and 0 were entered. *)
Definition exponentForm : FormInputs :=
  {| repositoryUrlInput := "https://github.com/octocat/hello";
     apiKeyInput := "sk-or-v1-abc123";
     advancedInputs :=
       Some {| includeDependenciesChecked := true;
               generateMocksChecked := true;
               targetCoverageInput := Typed "1e2" 100;
               maxFilesInput := Typed "0.9e1" 9 |};
     hiddenInputs := None |}.

Definition closedAgainForm : FormInputs :=
  {| repositoryUrlInput := "https://github.com/octocat/hello";
     apiKeyInput := "sk-or-v1-abc123";
     advancedInputs := None;
     hiddenInputs :=
       Some {| includeDependenciesChecked := false;
               generateMocksChecked := true;
               targetCoverageInput := Entered 150;
               maxFilesInput := Entered 0 |} |}.

End AnalysisForm.

(** *** pages/AnalysisPage.js: polling of the task status *)

Module AnalysisPage.
Import Js ErrorMessage.

(** The body of [GET /status/:taskId], as far as the page reads it. *)
Record TaskStatus := {
  status : string;
  progress_percentage : Q;
  current_step : string;
  error_message : option string
}.

(** What one status request comes back with. *)
Inductive Response :=
| Ok (body : TaskStatus)
| Failed (error : JsError).

Inductive Event :=
| GetStatus (path : string)
| SetPollingInterval (v : option nat)
| ToastSuccess (text : string)
| ToastError (text : string)
| Navigate (path : string).

(** The state of the page: whether it is still mounted, the
    [pollingInterval] state variable ([None] is [false]), the query's
    [data] and [error], the value of [status?.status] the effect last
    ran for, and what the page has done so far (latest first). *)
Record Page := {
  mounted : bool;
  pollingInterval : option nat;
  data : option TaskStatus;
  error : option JsError;
  effectDep : option string;
  log : list Event
}.

(** [useState(2000)]; nothing fetched yet. *)
Definition mount : Page :=
  {| mounted := true; pollingInterval := Some 2000%nat; data := None;
     error := None; effectDep := None; log := [] |}.

(** [status?.status] *)
Definition statusOf (p : Page) : option string := option_map status (data p).

Definition sameDep (a b : option string) : bool :=
  match a, b with
  | None, None => true
  | Some x, Some y => x =? y
  | _, _ => false
  end.

(** What the page renders: the spinner while the query is loading, the
    error card with the derived message when the query has an error, and
    otherwise the progress tracker with its three props and the task's
    error message.  The render fails when the message cannot be derived
    or is not something that can be shown as text. *)
Inductive View :=
| LoadingView
| ErrorView (text : Value)
| ProgressView (progress : Q) (currentStep : string) (trackerStatus : string)
    (errorBox : option string)
| RenderError.

(** What can stand as a child of an element: text, numbers, booleans,
    [null], [undefined] and arrays of these; an object cannot. *)
Fixpoint renderable (v : Value) : bool :=
  match v with
  | Object _ => false
  | Array l => forallb renderable l
  | _ => true
  end.

(** [s || d] on strings *)
Definition orText (s d : string) : string := if s =? "" then d else s.

(** [n || 0] on a number *)
Definition orZeroQ (n : Q) : Q := if Qeq_bool n 0 then 0 else n.

Definition render (p : Page) : View :=
  match error p, data p with
  | None, None => LoadingView
  | Some e, _ =>
      match deriveErrorMessage "An error occurred while loading the task" e
      with
      | Normal text => if renderable text then ErrorView text else RenderError
      | Throw _ => RenderError
      end
  | None, Some body =>
      ProgressView (orZeroQ (progress_percentage body))
        (orText (current_step body) "Initializing...")
        (orText (status body) "pending")
        (match error_message body with
         | Some m => if m =? "" then None else Some m
         | None => None
         end)
  end.

Definition crashed (v : View) : bool :=
  match v with RenderError => true | _ => false end.

(** A render that fails takes the page down: nothing catches the error,
    so the page is unmounted. *)
Definition unmount (p : Page) : Page :=
  {| mounted := false; pollingInterval := pollingInterval p;
     data := data p; error := error p; effectDep := effectDep p;
     log := log p |}.

(** The body of the effect; navigating to the results leaves the
    page. *)
Definition effectBody (taskId : string) (p : Page) : Page :=
  match statusOf p with
  | Some st =>
      if st =? "completed" then
        {| mounted := false; pollingInterval := None; data := data p;
           error := error p; effectDep := effectDep p;
           log := Navigate ("/results/" ++ taskId)
                  :: ToastSuccess "Analysis completed successfully!"
                  :: SetPollingInterval None :: log p |}
      else if st =? "failed" then
        {| mounted := mounted p; pollingInterval := None; data := data p;
           error := error p; effectDep := effectDep p;
           log := ToastError "Analysis failed. Please try again."
                  :: SetPollingInterval None :: log p |}
      else p
  | None => p
  end.

(** After a render the effect runs when [status?.status] differs from
    the value it last ran for. *)
Definition runEffect (taskId : string) (p : Page) : Page :=
  if sameDep (effectDep p) (statusOf p) then p
  else effectBody taskId
         {| mounted := mounted p; pollingInterval := pollingInterval p;
            data := data p; error := error p; effectDep := statusOf p;
            log := log p |}.

(** The query keeps the body, or the error, of an answer. *)
Definition store (p : Page) (r : Response) : Page :=
  match r with
  | Ok body =>
      {| mounted := mounted p; pollingInterval := pollingInterval p;
         data := Some body; error := None; effectDep := effectDep p;
         log := log p |}
  | Failed e =>
      {| mounted := mounted p; pollingInterval := pollingInterval p;
         data := data p; error := Some e; effectDep := effectDep p;
         log := log p |}
  end.

(** A status request is answered: the page renders again, and its
    effect runs if the render went through. *)
Definition receive (taskId : string) (p : Page) (r : Response) : Page :=
  if crashed (render (store p r)) then unmount (store p r)
  else runEffect taskId (store p r).

(** The page still polls: it is mounted and its interval is a number. *)
Definition alive (p : Page) : bool :=
  mounted p && match pollingInterval p with Some _ => true | None => false end.

(** One period of [refetchInterval: pollingInterval]: a request goes out
    only while the page polls. *)
Definition poll (taskId : string) (p : Page) (r : Response) : Page :=
  if alive p then
    receive taskId
      {| mounted := mounted p; pollingInterval := pollingInterval p;
         data := data p; error := error p; effectDep := effectDep p;
         log := GetStatus ("/status/" ++ taskId) :: log p |} r
  else p.

(** The page against the answers the server would give, one per period. *)
Definition run (taskId : string) (answers : list Response) : Page :=
  fold_left (poll taskId) answers mount.

Definition isGetStatus (e : Event) : bool :=
  match e with GetStatus _ => true | _ => false end.

Definition requests (p : Page) : nat :=
  List.length (filter isGetStatus (log p)).

Definition navigations (p : Page) : list string :=
  flat_map (fun e => match e with Navigate path => [path] | _ => [] end)
    (log p).

(** A terminal answer reports [completed] or [failed]. *)
Definition terminal (r : Response) : bool :=
  match r with
  | Ok body => (status body =? "completed") || (status body =? "failed")
  | Failed _ => false
  end.

(** An answer the page can show: a body, or an error whose message can
    be derived and shown. *)
Definition survives (r : Response) : bool :=
  match r with
  | Ok _ => true
  | Failed e =>
      match deriveErrorMessage "An error occurred while loading the task" e
      with
      | Normal text => renderable text
      | Throw _ => false
      end
  end.

(** An answer with the given status and progress. *)
Definition answer (st : string) (pct : Q) : Response :=
  Ok {| status := st; progress_percentage := pct;
        current_step := "Generating tests"; error_message := None |}.

(** The answer reports the status [st]. *)
Definition reports (st : string) (r : Response) : bool :=
  match r with
  | Ok body => status body =? st
  | Failed _ => false
  end.

(** While the page still polls, the effect is in step with the status
    and has seen no terminal status, and all the page has done is
    request the status. *)
Definition notTerminalStatus (o : option string) : Prop :=
  match o with
  | Some st => (st =? "completed") = false /\ (st =? "failed") = false
  | None => True
  end.

Record polling (taskId : string) (p : Page) : Prop := {
  polling_mounted : mounted p = true;
  polling_interval : pollingInterval p = Some 2000%nat;
  polling_dep : effectDep p = statusOf p;
  polling_status : notTerminalStatus (statusOf p);
  polling_log :
    log p = repeat (GetStatus ("/status/" ++ taskId)) (requests p)
}.

(** What the page did besides requesting the status (latest first). *)
Definition notices (p : Page) : list Event :=
  filter (fun e => negb (isGetStatus e)) (log p).

(** What the page does on a terminal answer (latest first). *)
Definition reaction (taskId : string) (r : Response) : list Event :=
  if reports "completed" r
  then [Navigate ("/results/" ++ taskId);
        ToastSuccess "Analysis completed successfully!";
        SetPollingInterval None]
  else [ToastError "Analysis failed. Please try again.";
        SetPollingInterval None].

(** A request error without a response, as a lost connection gives. *)
Definition networkError : Response :=
  Failed {| response_data := None; message := Str "Network Error" |}.

End AnalysisPage.

(** *** pages/ResultsPage.js: downloads and per-language counts *)

Module ResultsPage.
Import Js ErrorMessage.

Inductive Event :=
| SetDownloading (type : string) (b : bool)
| Get (path : string)
| SaveAs (filename : string)
| ToastSuccess (text : string)
| ToastError (text : Value)
| ConsoleError
| Uncaught (exn : string).

(** The [filename] of [handleDownload]. *)
Definition downloadFilename (type taskId : string) : string :=
  if type =? "tests" then "test_files_" ++ taskId ++ ".zip"
  else "coverage_report_" ++ taskId ++ ".zip".

(** The path requested by [downloadTestFiles] and
    [downloadCoverageReport]. *)
Definition downloadPath (type taskId : string) : string :=
  if type =? "tests" then "/download/" ++ taskId ++ "/tests"
  else "/download/" ++ taskId ++ "/coverage".

(** The server's answer to a download: the archive's bytes, or an
    error. *)
Inductive Reply :=
| Blob (bytes : string)
| Rejected (error : JsError).

Definition handleDownload (server : string -> Reply) (taskId type : string)
  : list Event :=
  [SetDownloading type true; Get (downloadPath type taskId)]
  ++ match server (downloadPath type taskId) with
     | Blob _ =>
         [SaveAs (downloadFilename type taskId);
          ToastSuccess ((if type =? "tests" then "Test files"
                         else "Coverage report")
                        ++ " downloaded successfully!");
          SetDownloading type false]
     | Rejected error =>
         ConsoleError ::
         match deriveErrorMessage
                 ("Failed to download "
                  ++ (if type =? "tests" then "test files"
                      else "coverage report")) error with
         | Normal text => [ToastError text; SetDownloading type false]
         | Throw exn => [SetDownloading type false; Uncaught exn]
         end
     end.

Definition savedAs (events : list Event) : list string :=
  flat_map (fun e => match e with SaveAs f => [f] | _ => [] end) events.

(** An entry of [results.test_files]: the [files] list and the
    [test_count] of a file may be missing.  A count is the integer
    written in the JSON body; the page has it as a number. *)
Record TestFile := {
  test_file : string;
  test_count : option Z
}.

Record LanguageTests := {
  framework : string;
  files : option (list TestFile);
  success : bool
}.





(** The counts a card is to show: the number of files, and the sum of
    their test counts, a missing list or count standing for 0. *)
Definition numberOfFiles (d : LanguageTests) : Z :=
  match files d with
  | Some l => Z.of_nat (List.length l)
  | None => 0%Z
  end.









(** The list under "Generated Test Files", rendered when [data.files] is
    a non-empty list: the rows of [data.files.slice(0, 5)], and the [N]
    of "... and N more files" when there are more than five. *)
Record FilePreview := {
  shownRows : list TestFile;
  moreFiles : option Z
}.

Definition filePreview (d : LanguageTests) : option FilePreview :=
  match files d with
  | Some l =>
      if (0 <? Z.of_nat (List.length l))%Z
      then Some {| shownRows := firstn 5 l;
                   moreFiles :=
                     if (5 <? Z.of_nat (List.length l))%Z
                     then Some (Z.of_nat (List.length l) - 5)%Z
                     else None |}
      else None
  | None => None
  end.

Definition hiddenFiles (pv : FilePreview) : Z :=
  match moreFiles pv with
  | Some k => k
  | None => 0%Z
  end.

(** The paths requested, and the [downloading] flag of a kind after a
    list of events ([None]: untouched). *)
Definition requested (events : list Event) : list string :=
  flat_map (fun e => match e with Get path => [path] | _ => [] end) events.

Definition downloadingAfter (type : string) (events : list Event)
  : option bool :=
  fold_left (fun st e => match e with
                         | SetDownloading t b =>
                             if t =? type then Some b else st
                         | _ => st
                         end) events None.

End ResultsPage.

(** *** The task orchestrator behind [GET /status/:taskId] *)

Module Orchestrator.

























End Orchestrator.

(** *** components/ProgressTracker.js *)

Module ProgressTracker.

Inductive Icon := Clock | Play.

Record Phase := {
  id : string;
  name : string;
  description : string;
  startProgress : Z;
  endProgress : Z;
  icon : Icon
}.

(** [const phases = [...]] *)
Definition phases : list Phase := [
  {| id := "initialization"; name := "Initialization";
     description := "Setting up analysis environment";
     startProgress := 0; endProgress := 10; icon := Clock |};
  {| id := "cloning"; name := "Cloning Repository";
     description := "Downloading repository from GitHub";
     startProgress := 10; endProgress := 20; icon := Play |};
  {| id := "analysis"; name := "Code Analysis";
     description := "Detecting languages and structure";
     startProgress := 20; endProgress := 30; icon := Play |};
  {| id := "generation"; name := "Test Generation";
     description := "AI generating unit tests";
     startProgress := 30; endProgress := 70; icon := Play |};
  {| id := "execution"; name := "Test Execution";
     description := "Running tests and coverage";
     startProgress := 70; endProgress := 90; icon := Play |};
  {| id := "completion"; name := "Finalization";
     description := "Preparing results and reports";
     startProgress := 90; endProgress := 100; icon := Play |}
].

Inductive PhaseStatus := completed | current | pending.

(** [a >= b] and [a < b] on numbers.  The caller passes
    [status?.progress_percentage || 0], so [progress] is never NaN. *)
Definition geq (a b : Q) : bool := Qle_bool b a.
Definition lt (a b : Q) : bool := negb (Qle_bool b a).

(** The predicate both functions test:
    [progress >= phase.startProgress && progress < phase.endProgress]. *)
Definition inRange (progress : Q) (phase : Phase) : bool :=
  geq progress (inject_Z (startProgress phase))
  && lt progress (inject_Z (endProgress phase)).

Definition getPhaseStatus (progress : Q) (phase : Phase) : PhaseStatus :=
  if geq progress (inject_Z (endProgress phase)) then completed
  else if inRange progress phase then current
  else pending.

(** [phases.find(...) || phases[phases.length - 1]]; [None] is
    [undefined], which an empty table would give. *)
Definition getCurrentPhase_in (table : list Phase) (progress : Q)
  : option Phase :=
  match find (inRange progress) table with
  | Some p => Some p
  | None => nth_error table (List.length table - 1)
  end.

Definition getCurrentPhase : Q -> option Phase := getCurrentPhase_in phases.

(** Successive entries of a table meet: each phase starts where the one
    before it ends. *)
Definition meets (table : list Phase) : Prop :=
  forall i p q,
    nth_error table i = Some p ->
    nth_error table (S i) = Some q ->
    startProgress q = endProgress p.

(** The last entry of the table, the fallback of [getCurrentPhase]. *)
Definition finalPhase : Phase :=
  {| id := "completion"; name := "Finalization";
     description := "Preparing results and reports";
     startProgress := 90; endProgress := 100; icon := Play |}.

(** The five processing stages the design names, by the identifiers the
    phase table gives them. *)
Definition processing_stages : list string :=
  ["cloning"; "analysis"; "generation"; "execution"; "completion"].

(** How far a phase has come: pending, then current, then completed. *)
Definition rank (s : PhaseStatus) : nat :=
  match s with
  | pending => 0
  | current => 1
  | completed => 2
  end.

End ProgressTracker.


(** ** Part II: properties *)

(** *** Strings and regular expressions *)

Section RegExpFacts.
Import RegExp.

Lemma append_nil_r (s : string) : s ++ "" = s.
Proof. induction s as [| c s IH]; cbn; [reflexivity | now rewrite IH]. Qed.

Lemma append_assoc (a b c : string) : (a ++ b) ++ c = a ++ (b ++ c).
Proof. induction a as [| x a IH]; cbn; [reflexivity | now rewrite IH]. Qed.

Lemma append_eq_nil (a b : string) : a ++ b = "" -> a = "" /\ b = "".
Proof. destruct a; cbn; [tauto | discriminate]. Qed.

Lemma append_inv_head (a b c : string) : a ++ b = a ++ c -> b = c.
Proof.
  induction a as [| x a IH]; cbn; [tauto |].
  intro H. injection H as H. exact (IH H).
Qed.

Lemma nullable_spec (r : regex) : nullable r = true <-> Matches r "".
Proof.
  split.
  - induction r as [| | p | r1 IH1 r2 IH2 | r1 IH1 r2 IH2 | r IH]; cbn;
      intro H; try discriminate.
    + constructor.
    + apply andb_true_iff in H. destruct H as [H1 H2].
      change "" with ("" ++ ""). constructor; auto.
    + apply orb_true_iff in H. destruct H as [H | H];
        [apply MAltL | apply MAltR]; auto.
    + constructor.
  - intro H. remember "" as w eqn:E.
    induction H as [| p c Hp | r1 r2 s1 s2 H1 IH1 H2 IH2 | r1 r2 s H IH
                    | r1 r2 s H IH | r | r s1 s2 H1 IH1 H2 IH2]; cbn;
      try reflexivity; try discriminate.
    + apply append_eq_nil in E. destruct E as [-> ->].
      rewrite IH1, IH2; reflexivity.
    + rewrite (IH E). reflexivity.
    + rewrite (IH E). apply orb_true_r.
Qed.

Lemma deriv_sound (c : ascii) (r : regex) :
  forall s, Matches (deriv c r) s -> Matches r (String c s).
Proof.
  induction r as [| | p | r1 IH1 r2 IH2 | r1 IH1 r2 IH2 | r IH]; cbn;
    intros s H.
  - inversion H.
  - inversion H.
  - destruct (p c) eqn:Hp; inversion H; subst. constructor. exact Hp.
  - assert (Hcat : forall w, Matches (Cat (deriv c r1) r2) w ->
                             Matches (Cat r1 r2) (String c w)).
    { intros w Hw. inversion Hw; subst.
      change (String c (s1 ++ s2)) with (String c s1 ++ s2).
      constructor; auto. }
    destruct (nullable r1) eqn:N.
    + inversion H; subst.
      * apply Hcat. assumption.
      * change (String c s) with ("" ++ String c s).
        constructor; [apply nullable_spec; exact N | auto].
    + apply Hcat. exact H.
  - inversion H; subst; [apply MAltL | apply MAltR]; auto.
  - inversion H; subst.
    change (String c (s1 ++ s2)) with (String c s1 ++ s2).
    constructor; auto.
Qed.

Lemma deriv_complete (c : ascii) (r : regex) (w : string) :
  Matches r w -> forall s, w = String c s -> Matches (deriv c r) s.
Proof.
  induction 1 as [| p c0 Hp | r1 r2 s1 s2 H1 IH1 H2 IH2 | r1 r2 s0 H IH
                  | r1 r2 s0 H IH | r | r s1 s2 H1 IH1 H2 IH2];
    intros s E; cbn.
  - discriminate.
  - injection E as -> <-. rewrite Hp. constructor.
  - destruct s1 as [| x s1]; cbn in E.
    + apply nullable_spec in H1. rewrite H1. apply MAltR. auto.
    + injection E as -> <-.
      assert (Hc : Matches (Cat (deriv c r1) r2) (s1 ++ s2))
        by (constructor; auto).
      destruct (nullable r1); [apply MAltL |]; exact Hc.
  - apply MAltL. auto.
  - apply MAltR. auto.
  - discriminate.
  - destruct s1 as [| x s1]; cbn in E.
    + apply (IH2 s E).
    + injection E as -> <-. constructor; auto.
Qed.

(** The derivative matcher decides membership in the language. *)
Lemma test_spec (s : string) :
  forall r, test r s = true <-> Matches r s.
Proof.
  induction s as [| c s IH]; intro r; cbn.
  - apply nullable_spec.
  - rewrite IH. split.
    + apply deriv_sound.
    + intro H. apply (deriv_complete c r _ H). reflexivity.
Qed.

Lemma matches_Cat (r1 r2 : regex) (w : string) :
  Matches (Cat r1 r2) w <->
  exists s1 s2, w = s1 ++ s2 /\ Matches r1 s1 /\ Matches r2 s2.
Proof.
  split.
  - intro H. inversion H; subst. eauto.
  - intros [s1 [s2 [-> [H1 H2]]]]. constructor; assumption.
Qed.

Lemma matches_Chr (c : ascii) (w : string) :
  Matches (Chr c) w <-> w = String c "".
Proof.
  unfold Chr. split.
  - intro H. inversion H; subst.
    match goal with E : Ascii.eqb _ _ = true |- _ =>
      apply Ascii.eqb_eq in E; now subst end.
  - intros ->. constructor. apply Ascii.eqb_refl.
Qed.

Lemma matches_Lit (s w : string) : Matches (Lit s) w <-> w = s.
Proof.
  revert w. induction s as [| c s IH]; intro w; cbn.
  - split; [intro H; now inversion H | intros ->; constructor].
  - rewrite matches_Cat. split.
    + intros [s1 [s2 [-> [H1 H2]]]].
      apply matches_Chr in H1. apply IH in H2. subst. reflexivity.
    + intros ->. exists (String c ""), s. split; [reflexivity |].
      split; [apply matches_Chr | apply IH]; reflexivity.
Qed.

Lemma matches_Star_Class (p : ascii -> bool) (w : string) :
  Matches (Star (Class p)) w <-> allChars p w = true.
Proof.
  split.
  - intro H. remember (Star (Class p)) as r eqn:E.
    induction H as [| q c Hq | r1 r2 s1 s2 H1 IH1 H2 IH2 | r1 r2 s H IH
                    | r1 r2 s H IH | r | r s1 s2 H1 IH1 H2 IH2];
      try discriminate.
    + reflexivity.
    + injection E as ->. inversion H1; subst. cbn.
      rewrite IH2 by reflexivity.
      match goal with E : p _ = true |- _ => now rewrite E end.
  - induction w as [| c w IH]; cbn; intro H.
    + constructor.
    + apply andb_true_iff in H. destruct H as [Hc Hw].
      change (String c w) with (String c "" ++ w).
      constructor; [constructor; exact Hc | auto].
Qed.

Lemma matches_Plus_Class (p : ascii -> bool) (w : string) :
  Matches (Plus (Class p)) w <-> w <> "" /\ allChars p w = true.
Proof.
  unfold Plus. rewrite matches_Cat. split.
  - intros [s1 [s2 [-> [H1 H2]]]]. inversion H1; subst.
    apply matches_Star_Class in H2. cbn. split; [discriminate |].
    match goal with E : p _ = true |- _ => now rewrite E end.
  - intros [Hne H]. destruct w as [| c w]; [congruence |].
    cbn in H. apply andb_true_iff in H. destruct H as [Hc Hw].
    exists (String c ""), w. split; [reflexivity |].
    split; [constructor; exact Hc | apply matches_Star_Class; exact Hw].
Qed.

End RegExpFacts.

(** *** The analysis form *)

Section AnalysisFormFacts.
Import Js RegExp ErrorMessage AnalysisForm.

Lemma repositoryUrlPattern_spec (url : string) :
  test repositoryUrlPattern url = true <-> GitHubRepositoryUrl url.
Proof.
  rewrite test_spec. unfold repositoryUrlPattern, GitHubRepositoryUrl, segment.
  rewrite matches_Cat. split.
  - intros [s1 [s2 [-> [H1 H2]]]].
    apply matches_Lit in H1. subst s1.
    apply matches_Cat in H2. destruct H2 as [owner [t [-> [Ho Ht]]]].
    apply matches_Plus_Class in Ho.
    apply matches_Cat in Ht. destruct Ht as [sl [repo [-> [Hs Hr]]]].
    apply matches_Chr in Hs. subst sl.
    apply matches_Plus_Class in Hr.
    exists owner, repo. split; [reflexivity | tauto].
  - intros [owner [repo [-> [Ho Hr]]]].
    exists "https://github.com/", (owner ++ "/" ++ repo).
    split; [reflexivity |]. split; [apply matches_Lit; reflexivity |].
    apply matches_Cat. exists owner, ("/" ++ repo).
    split; [reflexivity |]. split; [apply matches_Plus_Class; exact Ho |].
    apply matches_Cat. exists "/", repo.
    split; [reflexivity |]. split; [apply matches_Chr; reflexivity |].
    apply matches_Plus_Class. exact Hr.
Qed.

Lemma empty_not_repository : ~ GitHubRepositoryUrl "".
Proof. intros [owner [repo [E _]]]. discriminate E. Qed.

(** The field passes its rules exactly when the address is well formed. *)
Lemma repositoryUrl_valid_iff (url : string) :
  validateField repositoryUrlOptions url None = None
  <-> GitHubRepositoryUrl url.
Proof.
  unfold validateField. destruct (url =? "") eqn:E.
  - apply String.eqb_eq in E. subst url. cbn.
    split; [discriminate | intro H; destruct (empty_not_repository H)].
  - cbn. rewrite <- repositoryUrlPattern_spec.
    destruct (test repositoryUrlPattern url); split; congruence.
Qed.

Lemma noErrors_spec (e : FormErrors) :
  noErrors e = true <->
  repositoryUrlError e = None /\ apiKeyError e = None
  /\ targetCoverageError e = None /\ maxFilesError e = None.
Proof.
  unfold noErrors. rewrite !andb_true_iff.
  destruct (repositoryUrlError e), (apiKeyError e), (targetCoverageError e),
    (maxFilesError e); cbn; intuition congruence.
Qed.

(** [parseInt] reads back the decimal text of an integer. *)

Lemma digitChar_isDigit (d : Z) :
  (0 <= d < 10)%Z -> isDigit (digitChar d) = true.
Proof.
  intro H.
  assert (E : (d = 0 \/ d = 1 \/ d = 2 \/ d = 3 \/ d = 4 \/ d = 5 \/ d = 6
               \/ d = 7 \/ d = 8 \/ d = 9)%Z) by lia.
  repeat (destruct E as [-> | E]; [reflexivity |]). subst d. reflexivity.
Qed.

Lemma digitValue_digitChar (d : Z) :
  (0 <= d < 10)%Z -> digitValue 10 (digitChar d) = Some d.
Proof.
  intro H.
  assert (E : (d = 0 \/ d = 1 \/ d = 2 \/ d = 3 \/ d = 4 \/ d = 5 \/ d = 6
               \/ d = 7 \/ d = 8 \/ d = 9)%Z) by lia.
  repeat (destruct E as [-> | E]; [reflexivity |]). subst d. reflexivity.
Qed.

Lemma digits_S (f : nat) (n : Z) (acc : string) :
  digits (S f) n acc
  = if (n / 10 =? 0)%Z then String (digitChar (n mod 10)) acc
    else digits f (n / 10) (String (digitChar (n mod 10)) acc).
Proof. reflexivity. Qed.

Lemma parseDigits_digits (f : nat) :
  forall n acc a, (0 <= n < 2 ^ Z.of_nat (S f))%Z ->
    exists k, (0 <= k)%Z
      /\ parseDigits 10 a (digits (S f) n acc)
         = parseDigits 10 (Some (shifted a k n)) acc.
Proof.
  induction f as [| f IH]; intros n acc a Hn.
  - exists 1%Z. split; [lia |].
    assert (n < 2)%Z by (cbn in Hn; lia).
    rewrite digits_S. rewrite Z.div_small by lia. cbn [Z.eqb parseDigits].
    rewrite Z.mod_small by lia.
    rewrite digitValue_digitChar by lia.
    destruct a; cbn [shifted]; do 2 f_equal; lia.
  - rewrite digits_S. destruct (n / 10 =? 0)%Z eqn:E.
    + exists 1%Z. split; [lia |].
      apply Z.eqb_eq in E.
      assert (n < 10)%Z by (apply Z.div_small_iff in E; lia).
      cbn [parseDigits]. rewrite Z.mod_small by lia.
      rewrite digitValue_digitChar by lia.
      destruct a; cbn [shifted]; do 2 f_equal; lia.
    + assert (Hq : (0 <= n / 10 < 2 ^ Z.of_nat (S f))%Z).
      { split; [apply Z.div_pos; lia |].
        apply Z.div_lt_upper_bound; [lia |].
        replace (Z.of_nat (S (S f))) with (Z.of_nat (S f) + 1)%Z in Hn by lia.
        rewrite Z.pow_add_r in Hn by lia.
        assert (0 < 2 ^ Z.of_nat (S f))%Z by (apply Z.pow_pos_nonneg; lia).
        lia. }
      destruct (IH (n / 10)%Z (String (digitChar (n mod 10)) acc) a Hq)
        as [k [Hk Hp]].
      exists (k + 1)%Z. split; [lia |].
      rewrite Hp. cbn [parseDigits].
      rewrite digitValue_digitChar by (apply Z.mod_pos_bound; lia).
      do 2 f_equal. pose proof (Z.div_mod n 10 ltac:(lia)) as Hdm.
      destruct a; cbn [shifted].
      * rewrite Z.pow_add_r by lia. lia.
      * lia.
Qed.

Lemma digits_allDigits (f : nat) :
  forall n acc, (0 <= n)%Z -> RegExp.allChars isDigit acc = true ->
    RegExp.allChars isDigit (digits f n acc) = true.
Proof.
  induction f as [| f IH]; intros n acc Hn Hacc; cbn [digits];
    [exact Hacc |].
  assert (Hc : RegExp.allChars isDigit (String (digitChar (n mod 10)) acc)
               = true).
  { cbn [RegExp.allChars]. rewrite Hacc.
    rewrite digitChar_isDigit by (apply Z.mod_pos_bound; lia). reflexivity. }
  destruct (n / 10 =? 0)%Z; [exact Hc |].
  apply IH; [apply Z.div_pos; lia | exact Hc].
Qed.

Lemma digits_nonempty (f : nat) (n : Z) (acc : string) :
  digits (S f) n acc <> "".
Proof.
  revert n acc. induction f as [| f IH]; intros n acc; cbn [digits].
  - destruct (n / 10 =? 0)%Z; discriminate.
  - destruct (n / 10 =? 0)%Z; [discriminate | apply IH].
Qed.

Lemma log2_fuel (n : Z) :
  (0 <= n)%Z -> (0 <= n < 2 ^ Z.of_nat (S (Z.to_nat (Z.log2 n))))%Z.
Proof.
  intro Hn. split; [exact Hn |].
  pose proof (Z.log2_nonneg n) as Hl.
  replace (Z.of_nat (S (Z.to_nat (Z.log2 n)))) with (Z.succ (Z.log2 n)) by lia.
  destruct (Z.eq_dec n 0) as [-> | Hne]; [reflexivity |].
  apply Z.log2_spec. lia.
Qed.

(** On a non-empty run of decimal digits [parseInt] is [parseDigits]:
    there is no white space, no sign and no [0x] prefix to strip. *)
Lemma parseInt_allDigits (s : string) :
  s <> "" -> RegExp.allChars isDigit s = true ->
  parseInt s = match parseDigits 10 None s with
               | Some m => toNum (1 * m)
               | None => NaN
               end.
Proof.
  intros Hne Hd. destruct s as [| c s]; [congruence |].
  cbn [RegExp.allChars] in Hd. apply andb_true_iff in Hd.
  destruct Hd as [Hc Hs].
  destruct s as [| c2 s].
  - destruct c as [[] [] [] [] [] [] [] []]; try discriminate Hc; reflexivity.
  - cbn [RegExp.allChars] in Hs. apply andb_true_iff in Hs.
    destruct Hs as [Hc2 _].
    destruct c as [[] [] [] [] [] [] [] []]; try discriminate Hc;
      try reflexivity;
      destruct c2 as [[] [] [] [] [] [] [] []]; try discriminate Hc2;
      reflexivity.
Qed.

Lemma toNum_safe (n : Z) : (Z.abs n < 2 ^ 53)%Z -> toNum n = Int n.
Proof.
  intro H. unfold toNum, roundInteger.
  apply Z.ltb_lt in H. rewrite H. apply Z.ltb_lt in H.
  assert (Hlt : (Z.abs n <? 2 ^ 1024)%Z = true).
  { apply Z.ltb_lt. eapply Z.lt_trans; [exact H |].
    apply Z.pow_lt_mono_r; lia. }
  rewrite Hlt. reflexivity.
Qed.

Theorem parseInt_string_of_Z (n : Z) : parseInt (string_of_Z n) = toNum n.
Proof.
  unfold string_of_Z. destruct (n <? 0)%Z eqn:E.
  - apply Z.ltb_lt in E.
    set (f := Z.to_nat (Z.log2 (- n))).
    assert (Hp : parseInt (String "-" (digits (S f) (- n) ""))
                 = match parseDigits 10 None (digits (S f) (- n) "") with
                   | Some m => toNum (-1 * m)
                   | None => NaN
                   end).
    { pose proof (digits_allDigits (S f) (- n) "" ltac:(lia) eq_refl) as Hd.
      pose proof (digits_nonempty f (- n) "") as Hne.
      destruct (digits (S f) (- n) "") as [| c s]; [congruence |].
      cbn [RegExp.allChars] in Hd. apply andb_true_iff in Hd.
      destruct Hd as [Hc Hs].
      destruct s as [| c2 s].
      - destruct c as [[] [] [] [] [] [] [] []]; try discriminate Hc;
          reflexivity.
      - cbn [RegExp.allChars] in Hs. apply andb_true_iff in Hs.
        destruct Hs as [Hc2 _].
        destruct c as [[] [] [] [] [] [] [] []]; try discriminate Hc;
          try reflexivity;
          destruct c2 as [[] [] [] [] [] [] [] []]; try discriminate Hc2;
          reflexivity. }
    rewrite Hp.
    destruct (parseDigits_digits f (- n) "" None (log2_fuel (- n) ltac:(lia)))
      as [k [_ ->]].
    cbn [parseDigits shifted]. f_equal. lia.
  - apply Z.ltb_ge in E.
    set (f := Z.to_nat (Z.log2 n)).
    rewrite parseInt_allDigits;
      [| apply digits_nonempty | apply digits_allDigits; [lia | reflexivity]].
    destruct (parseDigits_digits f n "" None (log2_fuel n E)) as [k [_ ->]].
    cbn [parseDigits shifted]. f_equal. lia.
Qed.

Lemma string_of_Z_nonempty (n : Z) : string_of_Z n <> "".
Proof.
  unfold string_of_Z. destruct (n <? 0)%Z;
    [discriminate | apply digits_nonempty].
Qed.

(** [onSubmit] sends exactly one request, the one it built. *)
Lemma onSubmit_requests (server : AnalysisRequest -> Reply) (data : FormData) :
  omap posted (onSubmit server data) = [buildRequest data].
Proof.
  unfold onSubmit. cbn.
  destruct (server (buildRequest data)) as [task_id | err]; cbn;
    [reflexivity |].
  destruct (deriveErrorMessage _ err); reflexivity.
Qed.

(** What the request carries for a field of the advanced section. *)
Lemma target_coverage_of_input (data : FormData) (v : NumberInput) :
  targetCoverage data = Some (inputValue v) ->
  target_coverage (buildRequest data) = coverageSent v.
Proof.
  intro E. cbn [buildRequest target_coverage]. rewrite E. cbn [ToString_opt].
  destruct v as [| n | text number]; [reflexivity | | reflexivity].
  cbn [inputValue coverageSent]. rewrite parseInt_string_of_Z. reflexivity.
Qed.

Lemma max_files_of_input (data : FormData) (v : NumberInput) :
  maxFiles data = Some (inputValue v) ->
  max_files (buildRequest data) = maxFilesSent v.
Proof.
  intro E. cbn [buildRequest max_files]. rewrite E.
  destruct v as [| n | text number]; [reflexivity | |].
  - cbn [inputValue truthyText ToString_opt maxFilesSent].
    pose proof (string_of_Z_nonempty n) as Hne.
    apply String.eqb_neq in Hne. rewrite Hne. cbn [negb].
    rewrite parseInt_string_of_Z. reflexivity.
  - cbn [inputValue truthyText ToString_opt maxFilesSent].
    destruct (text =? ""); reflexivity.
Qed.

Lemma ltQ_spec (a b : Q) : ltQ a b = true <-> (a < b)%Q.
Proof.
  unfold ltQ. rewrite negb_true_iff.
  destruct (Qle_bool b a) eqn:E.
  - apply Qle_bool_iff in E. split; [discriminate | intro H].
    exfalso. apply (Qlt_not_le _ _ H E).
  - split; [intros _ | reflexivity].
    apply Qnot_le_lt. intro H. apply Qle_bool_iff in H. congruence.
Qed.

Lemma ltQ_inject (a b : Z) : ltQ (inject_Z a) (inject_Z b) = (a <? b)%Z.
Proof.
  destruct (a <? b)%Z eqn:E.
  - apply ltQ_spec. rewrite <- Zlt_Qlt. apply Z.ltb_lt. exact E.
  - destruct (ltQ (inject_Z a) (inject_Z b)) eqn:L; [| reflexivity].
    apply ltQ_spec in L. rewrite <- Zlt_Qlt in L. apply Z.ltb_lt in L.
    congruence.
Qed.

Lemma validate_number_range (o : RegisterOptions) (n lo : Z) (m : string) :
  min o = Some (lo, m) ->
  validateField o (string_of_Z n) (Some (inject_Z n)) = None -> (lo <= n)%Z.
Proof.
  intros Hmin. unfold validateField.
  pose proof (string_of_Z_nonempty n) as Hne.
  apply String.eqb_neq in Hne. rewrite Hne.
  destruct (exceeds (max o) true (Some (inject_Z n))); [discriminate |].
  rewrite Hmin. cbn [exceeds]. rewrite ltQ_inject.
  destruct (n <? lo)%Z eqn:E; [discriminate |].
  intros _. apply Z.ltb_ge in E. exact E.
Qed.

Lemma validate_number_max (o : RegisterOptions) (n hi : Z) (m : string) :
  max o = Some (hi, m) ->
  validateField o (string_of_Z n) (Some (inject_Z n)) = None -> (n <= hi)%Z.
Proof.
  intros Hmax. unfold validateField.
  pose proof (string_of_Z_nonempty n) as Hne.
  apply String.eqb_neq in Hne. rewrite Hne.
  rewrite Hmax. cbn [exceeds]. rewrite ltQ_inject.
  destruct (hi <? n)%Z eqn:E; [discriminate |].
  intros _. apply Z.ltb_ge in E. exact E.
Qed.

(** X7.  The options bundle of every request the form sends.  The two
    flags are the check boxes of the advanced section, false while it
    has never been opened.  [target_coverage] is 80 for a blank field,
    the integer entered (80 for 0), and for other text what [parseInt]
    reads from it (80 when that is NaN or 0); [max_files] is [null] for
    a blank field and otherwise what [parseInt] reads.  While the
    section is open the entries have passed their rules, so an entered
    coverage lies within 0..100 and an entered maximum is at least 1;
    after the section was closed again the values kept are sent as they
    are, unchecked. *)
Lemma request_options (server : AnalysisRequest -> Reply) (i : FormInputs)
  (request : AnalysisRequest) :
  In request (requestsOf (handleSubmit server i)) ->
  match registeredInputs i with
  | None =>
      include_dependencies request = false
      /\ generate_mocks request = false
      /\ target_coverage request = Int 80
      /\ max_files request = None
  | Some a =>
      include_dependencies request = includeDependenciesChecked a
      /\ generate_mocks request = generateMocksChecked a
      /\ target_coverage request = coverageSent (targetCoverageInput a)
      /\ max_files request = maxFilesSent (maxFilesInput a)
  end
  /\ forall a, advancedInputs i = Some a ->
       (forall n, targetCoverageInput a = Entered n ->
          (0 <= n <= 100)%Z
          /\ target_coverage request = if (n =? 0)%Z then Int 80 else Int n)
       /\ (forall n, maxFilesInput a = Entered n -> (1 <= n)%Z).
Proof.
  unfold handleSubmit.
  destruct (noErrors (validate i)) eqn:V; [| intros []].
  cbn [requestsOf]. rewrite onSubmit_requests. intros [<- | []].
  apply noErrors_spec in V. destruct V as [_ [_ [Vc Vm]]].
  assert (Hsent :
    match registeredInputs i with
    | None =>
        include_dependencies (buildRequest (collect i)) = false
        /\ generate_mocks (buildRequest (collect i)) = false
        /\ target_coverage (buildRequest (collect i)) = Int 80
        /\ max_files (buildRequest (collect i)) = None
    | Some a =>
        include_dependencies (buildRequest (collect i))
        = includeDependenciesChecked a
        /\ generate_mocks (buildRequest (collect i)) = generateMocksChecked a
        /\ target_coverage (buildRequest (collect i))
           = coverageSent (targetCoverageInput a)
        /\ max_files (buildRequest (collect i))
           = maxFilesSent (maxFilesInput a)
    end).
  { destruct (registeredInputs i) as [a |] eqn:R.
    - split; [cbn; rewrite R; reflexivity |].
      split; [cbn; rewrite R; reflexivity |]. split.
      + apply target_coverage_of_input. cbn. rewrite R. reflexivity.
      + apply max_files_of_input. cbn. rewrite R. reflexivity.
    - cbn. rewrite R. cbn. auto. }
  split; [exact Hsent |].
  intros a Ha. unfold registeredInputs in Hsent. rewrite Ha in Hsent.
  destruct Hsent as [_ [_ [Hc _]]].
  cbn [validate targetCoverageError maxFilesError] in Vc, Vm.
  rewrite Ha in Vc, Vm. split.
  - intros n En. rewrite En in Vc, Hc.
    cbn [inputValue valueAsNumber] in Vc.
    pose proof (validate_number_range targetCoverageOptions n 0 _ eq_refl Vc).
    pose proof (validate_number_max targetCoverageOptions n 100 _ eq_refl Vc).
    split; [lia |]. rewrite Hc. cbn [coverageSent].
    rewrite toNum_safe by lia. reflexivity.
  - intros n En. rewrite En in Vm. cbn [inputValue valueAsNumber] in Vm.
    apply (validate_number_range maxFilesOptions n 1 _ eq_refl Vm).
Qed.

(** C3, at the input where it fails.  A target coverage of 0 passes the
    field's rules (its minimum is 0), yet the request that is sent asks
    for 80: the fallback meant for a blank field also replaces an
    entered 0, so the request does not carry the integer entered. *)
Theorem zero_coverage_sent_as_80 (server : AnalysisRequest -> Reply) :
  validate zeroCoverageForm
  = {| repositoryUrlError := None; apiKeyError := None;
       targetCoverageError := None; maxFilesError := None |}
  /\ targetCoverage (collect zeroCoverageForm) = Some "0"
  /\ map target_coverage (requestsOf (handleSubmit server zeroCoverageForm))
     = [Int 80].
Proof.
  split; [vm_compute; reflexivity |]. split; [reflexivity |].
  unfold handleSubmit.
  match goal with |- context [noErrors ?v] =>
    replace (noErrors v) with true by (vm_compute; reflexivity) end.
  cbn [requestsOf]. rewrite onSubmit_requests. vm_compute. reflexivity.
Qed.

(** C4.  A request is sent only for a well-formed repository address,
    and it carries the address as entered; any other address yields a
    validation error on the field and no request; and a form whose fields
    all pass sends exactly the request built from it. *)
Theorem malformed_url_never_submitted
  (server : AnalysisRequest -> Reply) (i : FormInputs) :
  (forall request, In request (requestsOf (handleSubmit server i)) ->
     GitHubRepositoryUrl (repositoryUrlInput i)
     /\ repository_url request = repositoryUrlInput i)
  /\ (~ GitHubRepositoryUrl (repositoryUrlInput i) ->
      exists errors msg,
        handleSubmit server i = ValidationFailed errors
        /\ repositoryUrlError errors = Some msg
        /\ requestsOf (handleSubmit server i) = [])
  /\ (noErrors (validate i) = true ->
      requestsOf (handleSubmit server i) = [buildRequest (collect i)]).
Proof.
  unfold handleSubmit.
  destruct (noErrors (validate i)) eqn:V.
  - pose proof (proj1 (noErrors_spec _) V) as [Hurl _].
    cbn [validate repositoryUrlError] in Hurl.
    apply repositoryUrl_valid_iff in Hurl.
    cbn [requestsOf]. rewrite onSubmit_requests.
    split; [| split].
    + intros request [<- | []]. split; [exact Hurl | reflexivity].
    + intro Hn. destruct (Hn Hurl).
    + reflexivity.
  - split; [| split].
    + intros request [].
    + intro Hn.
      destruct (validateField repositoryUrlOptions (repositoryUrlInput i) None)
        as [msg |] eqn:E.
      * exists (validate i), msg. cbn [validate repositoryUrlError].
        rewrite E. auto.
      * apply repositoryUrl_valid_iff in E. destruct (Hn E).
    + discriminate.
Qed.

(** An address without the scheme is refused with the pattern's message. *)
Lemma malformed_url_never_submitted_witness :
  exists errors,
    handleSubmit (fun _ => Resolved "t1")
      {| repositoryUrlInput := "github.com/octocat/hello";
         apiKeyInput := "sk-or-v1-abc123";
         advancedInputs := None; hiddenInputs := None |}
    = ValidationFailed errors
    /\ repositoryUrlError errors
       = Some "Please enter a valid GitHub repository URL".
Proof.
  destruct (malformed_url_never_submitted (fun _ => Resolved "t1")
              {| repositoryUrlInput := "github.com/octocat/hello";
                 apiKeyInput := "sk-or-v1-abc123";
                 advancedInputs := None; hiddenInputs := None |})
    as [_ [Hbad _]].
  destruct Hbad as [errors [msg [Hs [He _]]]].
  - intro H. apply repositoryUrlPattern_spec in H. vm_compute in H.
    discriminate H.
  - exists errors. split; [exact Hs |].
    vm_compute in Hs. injection Hs as <-. reflexivity.
Defined.

End AnalysisFormFacts.

(** *** The results page *)

Section ResultsPageFacts.
Import Js ErrorMessage ResultsPage.

Lemma length_append (a b : string) :
  String.length (a ++ b) = (String.length a + String.length b)%nat.
Proof. induction a as [| c a IH]; cbn; [reflexivity | now rewrite IH]. Qed.

Lemma append_inv_tail (c : string) :
  forall a b, a ++ c = b ++ c -> a = b.
Proof.
  induction a as [| x a IH]; intros [| y b] H; cbn in H.
  - reflexivity.
  - apply (f_equal String.length) in H. cbn in H.
    rewrite length_append in H. lia.
  - apply (f_equal String.length) in H. cbn in H.
    rewrite length_append in H. lia.
  - injection H as -> H. f_equal. apply IH. exact H.
Qed.

Lemma downloadFilename_inj (type a b : string) :
  downloadFilename type a = downloadFilename type b -> a = b.
Proof.
  unfold downloadFilename. destruct (type =? "tests"); intro H;
    apply append_inv_head in H; apply append_inv_tail in H; exact H.
Qed.

(** C5.  The tests archive of a task is saved as
    [test_files_<taskId>.zip] and its coverage archive as
    [coverage_report_<taskId>.zip]; whatever bytes the server sends, a
    download of a given task and kind is saved under that one name; and
    the name determines the task id. *)
Theorem download_filename_deterministic (taskId : string) :
  downloadFilename "tests" taskId = "test_files_" ++ taskId ++ ".zip"
  /\ downloadFilename "coverage" taskId
     = "coverage_report_" ++ taskId ++ ".zip"
  /\ (forall server type bytes,
        server (downloadPath type taskId) = Blob bytes ->
        savedAs (handleDownload server taskId type)
        = [downloadFilename type taskId])
  /\ (forall type other,
        downloadFilename type taskId = downloadFilename type other ->
        taskId = other).
Proof.
  split; [reflexivity |]. split; [reflexivity |]. split.
  - intros server type bytes Hs. unfold handleDownload. rewrite Hs.
    reflexivity.
  - intros type other. apply downloadFilename_inj.
Qed.

(** Two downloads of the tests of task [42], from servers that send
    different bytes, are saved under the same name. *)
Lemma download_filename_deterministic_witness :
  savedAs (handleDownload (fun _ => Blob "PK-1") "42" "tests")
  = savedAs (handleDownload (fun _ => Blob "PK-2") "42" "tests")
  /\ savedAs (handleDownload (fun _ => Blob "PK-1") "42" "tests")
     = ["test_files_42.zip"].
Proof.
  destruct (download_filename_deterministic "42") as [Ht [_ [Hsave _]]].
  rewrite (Hsave (fun _ => Blob "PK-1") "tests" "PK-1" eq_refl).
  rewrite (Hsave (fun _ => Blob "PK-2") "tests" "PK-2" eq_refl).
  rewrite Ht. split; reflexivity.
Defined.








End ResultsPageFacts.

(** *** The status page *)

Section AnalysisPageFacts.
Import Js ErrorMessage AnalysisPage.

Variable taskId : string.

Lemma sameDep_refl (a : option string) : sameDep a a = true.
Proof. destruct a; cbn; [apply String.eqb_refl | reflexivity]. Qed.

Lemma sameDep_eq (a b : option string) : sameDep a b = true -> a = b.
Proof.
  destruct a, b; cbn; intro H; try discriminate; [| reflexivity].
  apply String.eqb_eq in H. congruence.
Qed.

Lemma polling_mount : polling taskId mount.
Proof. constructor; cbn; auto. Qed.

Lemma polling_alive (p : Page) : polling taskId p -> alive p = true.
Proof. intros [Hm Hi _ _ _]. unfold alive. rewrite Hm, Hi. reflexivity. Qed.

Lemma poll_dead (p : Page) (r : Response) :
  alive p = false -> poll taskId p r = p.
Proof. intro H. unfold poll. rewrite H. reflexivity. Qed.

Lemma run_stopped (answers : list Response) :
  forall p, alive p = false -> fold_left (poll taskId) answers p = p.
Proof.
  induction answers as [| r answers IH]; intros p Hp; cbn [fold_left];
    [reflexivity |].
  rewrite (poll_dead p r Hp). apply IH. exact Hp.
Qed.

Lemma requests_repeat (n : nat) (path : string) :
  List.length (filter isGetStatus (repeat (GetStatus path) n)) = n.
Proof. induction n as [| n IH]; cbn; [reflexivity | now rewrite IH]. Qed.

(** A non-terminal answer that the page can show: one more request, and
    the page polls on. *)
Lemma poll_survive (p : Page) (r : Response) :
  polling taskId p -> terminal r = false -> survives r = true ->
  polling taskId (poll taskId p r)
  /\ log (poll taskId p r) = GetStatus ("/status/" ++ taskId) :: log p.
Proof.
  intros Hp Hr Hs. pose proof (polling_alive p Hp) as Ha.
  destruct Hp as [Hm Hi Hd Hst Hlog].
  unfold poll. rewrite Ha. unfold receive.
  assert (Hpoll : forall q,
            mounted q = true -> pollingInterval q = Some 2000%nat ->
            effectDep q = statusOf q -> notTerminalStatus (statusOf q) ->
            log q = GetStatus ("/status/" ++ taskId) :: log p ->
            polling taskId q).
  { intros q Hqm Hqi Hqd Hqs Hql. constructor; try assumption.
    unfold requests. rewrite Hql. cbn [filter isGetStatus List.length repeat].
    f_equal. exact Hlog. }
  destruct r as [body | e].
  - cbn [store render error data crashed]. unfold runEffect.
    cbn [statusOf data option_map effectDep store].
    cbn in Hr. apply orb_false_iff in Hr. destruct Hr as [Hc Hf].
    destruct (sameDep (effectDep p) (Some (status body))) eqn:E.
    + split; [| reflexivity]. apply Hpoll; cbn; auto.
      apply sameDep_eq in E. exact E.
    + unfold effectBody. cbn [statusOf data option_map]. rewrite Hc, Hf.
      split; [| reflexivity]. apply Hpoll; cbn; auto.
  - cbn [survives] in Hs. cbn [store render error data].
    destruct (deriveErrorMessage _ e) as [text | exn]; [| discriminate Hs].
    rewrite Hs. cbn [crashed]. unfold runEffect.
    cbn [statusOf data option_map effectDep].
    fold (statusOf p). rewrite Hd, sameDep_refl.
    split; [| reflexivity]. apply Hpoll; cbn; auto.
Qed.

(** An answer that the page cannot show takes the page down. *)
Lemma poll_crash (p : Page) (r : Response) :
  alive p = true -> survives r = false ->
  mounted (poll taskId p r) = false
  /\ log (poll taskId p r) = GetStatus ("/status/" ++ taskId) :: log p
  /\ render (poll taskId p r) = RenderError.
Proof.
  intros Ha Hs. unfold poll. rewrite Ha. unfold receive.
  destruct r as [body | e]; [discriminate Hs |].
  cbn [survives] in Hs. cbn [store render error data].
  destruct (deriveErrorMessage _ e) as [text | exn] eqn:D.
  - rewrite Hs. cbn [crashed unmount mounted log render error data].
    rewrite D, Hs. auto.
  - cbn [crashed unmount mounted log render error data]. rewrite D. auto.
Qed.

(** A terminal answer: one more request, the reaction, and the page
    polls no more. *)
Lemma poll_terminal (p : Page) (r : Response) :
  polling taskId p -> terminal r = true ->
  alive (poll taskId p r) = false
  /\ pollingInterval (poll taskId p r) = None
  /\ log (poll taskId p r)
     = (reaction taskId r ++ GetStatus ("/status/" ++ taskId) :: log p)%list.
Proof.
  intros Hp Hr. pose proof (polling_alive p Hp) as Ha.
  destruct Hp as [Hm Hi Hd Hs Hlog].
  unfold poll. rewrite Ha. unfold receive.
  destruct r as [body | e]; [| discriminate Hr].
  cbn [store render error data crashed]. cbn in Hr. unfold runEffect.
  cbn [statusOf data option_map effectDep reaction reports].
  destruct (sameDep (effectDep p) (Some (status body))) eqn:E.
  - exfalso. apply sameDep_eq in E. rewrite Hd in E.
    rewrite E in Hs. cbn in Hs. destruct Hs as [Hc Hf].
    rewrite Hc, Hf in Hr. discriminate Hr.
  - unfold effectBody. cbn [statusOf data option_map].
    destruct (status body =? "completed") eqn:Hc.
    + unfold alive, reaction. cbn [reports]. rewrite Hc. cbn. auto.
    + cbn in Hr. rewrite Hr. unfold alive, reaction. cbn [reports].
      rewrite Hc. cbn. rewrite andb_false_r. auto.
Qed.

Lemma survives_cases (r : Response) :
  terminal r = true
  \/ (terminal r = false /\ survives r = true)
  \/ survives r = false.
Proof.
  destruct (terminal r); [auto |].
  destruct (survives r); auto.
Qed.

(** A page that still polls has only ever requested the status, once
    per answer. *)
Lemma alive_run (answers : list Response) :
  alive (run taskId answers) = true ->
  polling taskId (run taskId answers)
  /\ requests (run taskId answers) = List.length answers.
Proof.
  unfold run. induction answers as [| r answers IH] using rev_ind.
  - intros _. split; [apply polling_mount | reflexivity].
  - rewrite fold_left_app. cbn [fold_left].
    set (p := fold_left (poll taskId) answers mount) in *.
    intro Ha.
    destruct (alive p) eqn:Hp;
      [| rewrite (poll_dead p r Hp) in Ha; congruence].
    destruct (IH eq_refl) as [Hpoll Hreq].
    destruct (survives_cases r) as [Ht | [[Ht Hs] | Hs]].
    + destruct (poll_terminal p r Hpoll Ht) as [Hoff _]. congruence.
    + destruct (poll_survive p r Hpoll Ht Hs) as [Hpoll' Hlog].
      split; [exact Hpoll' |].
      unfold requests in *. rewrite Hlog. cbn [filter isGetStatus List.length].
      rewrite Hreq, length_app. cbn. lia.
    + destruct (poll_crash p r Hp Hs) as [Hm _].
      unfold alive in Ha. rewrite Hm in Ha. discriminate Ha.
Qed.

(** C6.  When a status request that the page sends is answered
    [completed] or [failed], the page's polling interval is off and it
    sends no further status request, whatever the server would answer
    later; after [completed] it has navigated to the results, after
    [failed] it has navigated nowhere. *)
Theorem polling_stops_at_terminal
  (before : list Response) (r : Response) (later : list Response) :
  alive (run taskId before) = true ->
  terminal r = true ->
  run taskId (before ++ r :: later) = run taskId (before ++ [r])
  /\ pollingInterval (run taskId (before ++ r :: later)) = None
  /\ requests (run taskId (before ++ r :: later)) = S (List.length before)
  /\ navigations (run taskId (before ++ r :: later))
     = if reports "completed" r then ["/results/" ++ taskId] else [].
Proof.
  intros Hb Hr. destruct (alive_run before Hb) as [Hp Hreq].
  unfold run in *. rewrite !fold_left_app. cbn [fold_left].
  set (p := fold_left (poll taskId) before mount) in *.
  destruct (poll_terminal p r Hp Hr) as [Hoff [Hint Hlog]].
  rewrite (run_stopped later _ Hoff).
  split; [reflexivity |]. split; [exact Hint |].
  destruct Hp as [_ _ _ _ Hplog].
  unfold requests, navigations in *. rewrite Hlog, Hplog, Hreq.
  unfold reaction. split.
  - destruct (reports "completed" r); cbn [app filter isGetStatus List.length];
      rewrite requests_repeat; reflexivity.
  - assert (Hnone : forall n,
              flat_map (fun e => match e with
                                 | Navigate path => [path]
                                 | _ => []
                                 end)
                (repeat (GetStatus ("/status/" ++ taskId)) n) = []).
    { induction n as [| n IH]; [reflexivity | exact IH]. }
    destruct (reports "completed" r); cbn [app flat_map]; rewrite Hnone;
      reflexivity.
Qed.

End AnalysisPageFacts.

(** A task seen running and then completed is asked about twice, however
    long the server would go on answering, and the page ends on the
    results of the task. *)
Lemma polling_stops_at_terminal_witness :
  AnalysisPage.requests
    (AnalysisPage.run "42"
       ([AnalysisPage.answer "running" 30]
        ++ AnalysisPage.answer "completed" 100
        :: [AnalysisPage.answer "running" 40])) = 2%nat
  /\ AnalysisPage.navigations
       (AnalysisPage.run "42"
          ([AnalysisPage.answer "running" 30]
           ++ AnalysisPage.answer "completed" 100
           :: [AnalysisPage.answer "running" 40])) = ["/results/42"].
Proof.
  destruct (polling_stops_at_terminal "42"
              [AnalysisPage.answer "running" 30]
              (AnalysisPage.answer "completed" 100)
              [AnalysisPage.answer "running" 40] eq_refl eq_refl)
    as [_ [_ [Hreq Hnav]]].
  split; [exact Hreq | exact Hnav].
Defined.

(** *** The error message *)

Section ErrorMessageFacts.
Import Js ErrorMessage.

Lemma stringify_defined (v : Value) :
  v <> Undefined -> exists t, stringify v = Some t.
Proof.
  destruct v as [| | [] | n | t | l | props]; intro H; cbn; eauto.
  congruence.
Qed.

Lemma elementMessage_defined (v : Value) :
  notNullish v = true -> exists m, elementMessage v = Normal m.
Proof.
  unfold elementMessage.
  destruct v as [| | b | n | t | l | props]; cbn; intro H; eauto;
    discriminate.
Qed.

Lemma mapM_elementMessage (l : list Value) :
  forallb notNullish l = true ->
  exists msgs, mapM elementMessage l = Normal msgs.
Proof.
  induction l as [| v l IH]; cbn [forallb mapM]; intro H;
    [eauto |].
  apply andb_true_iff in H. destruct H as [Hv Hl].
  destruct (elementMessage_defined v Hv) as [m ->].
  destruct (IH Hl) as [msgs ->]. cbn. eauto.
Qed.

Lemma textOrFalsy_cases (v : Value) :
  textOrFalsy v = true -> truthy v = false \/ exists t, v = Str t.
Proof.
  unfold textOrFalsy. destruct v; cbn; intro H; eauto;
    apply negb_true_iff in H; auto.
Qed.

(** X11.  When the text positions of the error hold text ([detail],
    [message] and [error.message] are strings or falsy, an array body has
    no [null] element), the cascade yields a string. *)
Lemma deriveErrorMessage_text (default : string) (error : JsError) :
  textualBody (responseData error) = true ->
  textOrFalsy (message error) = true ->
  exists t, deriveErrorMessage default error = Normal (Str t).
Proof.
  intros Hb Hm. unfold deriveErrorMessage.
  assert (Hfallback : exists t,
            (if truthy (message error) then Normal (message error)
             else Normal (Str default)) = Normal (Str t)).
  { destruct (textOrFalsy_cases _ Hm) as [-> | [t ->]]; [eauto |].
    destruct (truthy (Str t)); eauto. }
  destruct (truthy (responseData error)) eqn:T; [| exact Hfallback].
  destruct (responseData error) as [| | b | n | t | l | props];
    cbn in T; try discriminate T.
  - subst b. cbn. eauto.
  - cbn. destruct (stringify_defined (Number n) ltac:(discriminate)) as [t E].
    cbn in E. injection E as <-. eauto.
  - cbn. eauto.
  - cbn in Hb. cbn [isString get bind truthy].
    destruct (mapM_elementMessage l Hb) as [msgs ->]. cbn. eauto.
  - cbn in Hb. apply andb_true_iff in Hb. destruct Hb as [Hd Hmsg].
    cbn [isString get bind].
    destruct (textOrFalsy_cases _ Hd) as [-> | [t E]].
    + destruct (textOrFalsy_cases _ Hmsg) as [-> | [t E]].
      * cbn. eauto.
      * rewrite E. destruct (truthy (Str t)); cbn; eauto.
    + rewrite E. destruct (truthy (Str t)) eqn:Tt; [eauto |].
      destruct (textOrFalsy_cases _ Hmsg) as [-> | [u Eu]].
      * cbn. eauto.
      * rewrite Eu. destruct (truthy (Str u)); cbn; eauto.
Qed.

(** C7, at the input where it fails.  For the body of a validation
    error, an object whose [detail] is a list, the cascade takes [detail]
    as it is: the derived message is an array, not a string, and the
    form hands that array to the error toast. *)
Theorem detail_list_is_not_text (default : string) :
  deriveErrorMessage default validationError
  = Normal (Array [Object [("loc", Array [Str "body"; Str "repository_url"]);
                           ("msg", Str "field required");
                           ("type", Str "value_error.missing")]])
  /\ (forall t, deriveErrorMessage default validationError <> Normal (Str t))
  /\ forall data,
       In (AnalysisForm.ToastError
             (Array [Object [("loc", Array [Str "body"; Str "repository_url"]);
                             ("msg", Str "field required");
                             ("type", Str "value_error.missing")]]))
          (AnalysisForm.onSubmit
             (fun _ => AnalysisForm.Rejected validationError) data).
Proof.
  split; [reflexivity |]. split; [intros t H; discriminate H |].
  intro data. unfold AnalysisForm.onSubmit. cbn. tauto.
Qed.

End ErrorMessageFacts.

(** *** The orchestrator's progress *)

Section OrchestratorFacts.
Import Orchestrator.












End OrchestratorFacts.

(** *** The progress tracker *)

Section ProgressTrackerFacts.
Import ProgressTracker.

Lemma geq_spec (a b : Q) : geq a b = true <-> (b <= a)%Q.
Proof. unfold geq. apply Qle_bool_iff. Qed.

Lemma lt_spec (a b : Q) : lt a b = true <-> (a < b)%Q.
Proof.
  unfold lt. rewrite negb_true_iff.
  destruct (Qle_bool b a) eqn:E.
  - apply Qle_bool_iff in E. split; [discriminate | intro H].
    exfalso. apply (Qlt_not_le _ _ H E).
  - split; [intros _ | reflexivity].
    apply Qnot_le_lt. intro H. apply Qle_bool_iff in H. congruence.
Qed.

Lemma inRange_spec (x : Q) (p : Phase) :
  inRange x p = true <->
  (inject_Z (startProgress p) <= x /\ x < inject_Z (endProgress p))%Q.
Proof.
  unfold inRange. rewrite andb_true_iff, geq_spec, lt_spec. reflexivity.
Qed.

Ltac phase_cases Hin :=
  cbn in Hin;
  repeat (destruct Hin as [<- | Hin]; [| try contradiction]).

Lemma inRange_unique (x : Q) (p q : Phase) :
  In p phases -> In q phases ->
  inRange x p = true -> inRange x q = true -> p = q.
Proof.
  intros Hp Hq Rp Rq.
  apply inRange_spec in Rp. apply inRange_spec in Rq.
  unfold inject_Z in Rp, Rq.
  phase_cases Hp; phase_cases Hq;
    cbn [startProgress endProgress] in Rp, Rq; try reflexivity; lra.
Qed.

Lemma inRange_exists (x : Q) :
  (0 <= x)%Q -> (x < 100)%Q -> exists p, In p phases /\ inRange x p = true.
Proof.
  intros H0 H100.
  destruct (existsb (inRange x) phases) eqn:E.
  - apply existsb_exists in E. exact E.
  - exfalso.
    assert (Hall : forall p, In p phases -> inRange x p = false).
    { intros p Hp. destruct (inRange x p) eqn:R; [| reflexivity].
      rewrite <- E. symmetry. apply existsb_exists. eauto. }
    assert (Hstep : forall p, In p phases ->
              (inject_Z (startProgress p) <= x)%Q ->
              (inject_Z (endProgress p) <= x)%Q).
    { intros p Hp Hs. specialize (Hall p Hp).
      destruct (Qlt_le_dec x (inject_Z (endProgress p))) as [Hlt | Hle];
        [| exact Hle].
      assert (R : inRange x p = true)
        by (apply inRange_spec; split; assumption).
      congruence. }
    assert (H10 : (10 <= x)%Q)
      by (apply (Hstep (nth 0 phases (Build_Phase "" "" "" 0 0 Clock)));
          [cbn; tauto | exact H0]).
    assert (H20 : (20 <= x)%Q)
      by (apply (Hstep (nth 1 phases (Build_Phase "" "" "" 0 0 Clock)));
          [cbn; tauto | exact H10]).
    assert (H30 : (30 <= x)%Q)
      by (apply (Hstep (nth 2 phases (Build_Phase "" "" "" 0 0 Clock)));
          [cbn; tauto | exact H20]).
    assert (H70 : (70 <= x)%Q)
      by (apply (Hstep (nth 3 phases (Build_Phase "" "" "" 0 0 Clock)));
          [cbn; tauto | exact H30]).
    assert (H90 : (90 <= x)%Q)
      by (apply (Hstep (nth 4 phases (Build_Phase "" "" "" 0 0 Clock)));
          [cbn; tauto | exact H70]).
    assert (H100' : (100 <= x)%Q)
      by (apply (Hstep (nth 5 phases (Build_Phase "" "" "" 0 0 Clock)));
          [cbn; tauto | exact H90]).
    lra.
Qed.

Lemma status_current_iff (x : Q) (p : Phase) :
  getPhaseStatus x p = current <-> inRange x p = true.
Proof.
  unfold getPhaseStatus.
  destruct (geq x (inject_Z (endProgress p))) eqn:G.
  - split; [discriminate |]. intro R.
    apply inRange_spec in R. apply geq_spec in G. lra.
  - destruct (inRange x p); split; congruence.
Qed.

Lemma status_completed_iff (x : Q) (p : Phase) :
  getPhaseStatus x p = completed <-> (inject_Z (endProgress p) <= x)%Q.
Proof.
  unfold getPhaseStatus. rewrite <- geq_spec.
  destruct (geq x (inject_Z (endProgress p))).
  - tauto.
  - destruct (inRange x p); split; congruence.
Qed.

(** C1.  Every phase of the table has a non-empty range inside [0,100];
    the first range starts at 0, the last one ends at 100, and each phase
    starts where its predecessor ends; hence every progress value of
    [0,100) lies in the half-open range of exactly one phase. *)
Theorem phases_partition :
  Forall (fun p => (0 <= startProgress p < endProgress p)%Z
                   /\ (endProgress p <= 100)%Z) phases
  /\ option_map startProgress (hd_error phases) = Some 0%Z
  /\ option_map endProgress (nth_error phases (List.length phases - 1))
     = Some 100%Z
  /\ meets phases
  /\ forall x : Q, (0 <= x)%Q -> (x < 100)%Q ->
       exists p, In p phases /\ inRange x p = true
                 /\ forall q, In q phases -> inRange x q = true -> q = p.
Proof.
  split; [| split; [| split; [| split]]].
  - unfold phases. repeat constructor; cbn; lia.
  - reflexivity.
  - reflexivity.
  - intros i p q Hp Hq.
    do 6 (destruct i as [| i];
          [cbn in Hp, Hq; injection Hp as <-; try injection Hq as <-;
           try reflexivity; discriminate |]).
    destruct i; discriminate.
  - intros x H0 H100.
    destruct (inRange_exists x H0 H100) as [p [Hp R]].
    exists p. split; [exact Hp |]. split; [exact R |].
    intros q Hq Rq. apply (inRange_unique x); assumption.
Qed.

(** C2, as stated, fails: the table shown to the user is not the list of
    the five processing stages; it has a sixth entry. *)
Lemma phases_not_only_processing_stages :
  map id phases <> processing_stages /\ List.length phases <> 5%nat.
Proof. split; [discriminate | cbn; lia]. Qed.

(** C2, amended.  The phase table is a fixed list of six phases: an
    initialization phase followed by the five processing stages clone,
    code analysis, test generation, test execution and finalization, in
    that order. *)
Theorem phases_are_initialization_then_stages :
  map id phases = "initialization" :: processing_stages
  /\ map name phases =
     ["Initialization"; "Cloning Repository"; "Code Analysis";
      "Test Generation"; "Test Execution"; "Finalization"].
Proof. split; reflexivity. Qed.

(** C9.  For a progress value in [0,100]: a phase is completed exactly
    when the progress has reached its end; at most one phase is current,
    and exactly one is when the progress is below 100; [getCurrentPhase]
    always returns a phase of the table, which is the current one when
    there is one and the final phase (Finalization) when no range holds
    the progress, as at 100. *)
Theorem phase_status_classification (progress : Q) :
  (0 <= progress)%Q -> (progress <= 100)%Q ->
  (forall p, In p phases ->
     (getPhaseStatus progress p = completed
      <-> (inject_Z (endProgress p) <= progress)%Q))
  /\ (forall p q, In p phases -> In q phases ->
        getPhaseStatus progress p = current ->
        getPhaseStatus progress q = current -> p = q)
  /\ ((progress < 100)%Q ->
        exists p, In p phases /\ getPhaseStatus progress p = current)
  /\ (exists p, getCurrentPhase progress = Some p /\ In p phases)
  /\ (forall p, In p phases -> getPhaseStatus progress p = current ->
        getCurrentPhase progress = Some p)
  /\ ((forall p, In p phases -> getPhaseStatus progress p <> current) ->
        getCurrentPhase progress = Some finalPhase)
  /\ ((progress == 100)%Q -> getCurrentPhase progress = Some finalPhase).
Proof.
  intros H0 H100.
  assert (Hcur : forall p, In p phases ->
                   getPhaseStatus progress p = current ->
                   getCurrentPhase progress = Some p).
  { intros p Hp Sp. apply status_current_iff in Sp.
    unfold getCurrentPhase, getCurrentPhase_in.
    destruct (find (inRange progress) phases) as [q |] eqn:F.
    - apply find_some in F. destruct F as [Hq Rq].
      f_equal. apply (inRange_unique progress); assumption.
    - pose proof (find_none _ _ F p Hp). congruence. }
  assert (Hnone :
            (forall p, In p phases -> getPhaseStatus progress p <> current) ->
            getCurrentPhase progress = Some finalPhase).
  { intro Hn. unfold getCurrentPhase, getCurrentPhase_in.
    destruct (find (inRange progress) phases) as [q |] eqn:F.
    - apply find_some in F. destruct F as [Hq Rq].
      apply status_current_iff in Rq. destruct (Hn q Hq Rq).
    - reflexivity. }
  split; [| split; [| split; [| split; [| split; [| split]]]]].
  - intros p _. apply status_completed_iff.
  - intros p q Hp Hq Sp Sq.
    apply status_current_iff in Sp. apply status_current_iff in Sq.
    apply (inRange_unique progress); assumption.
  - intro Hlt. destruct (inRange_exists progress H0 Hlt) as [p [Hp R]].
    exists p. split; [exact Hp |]. apply status_current_iff. exact R.
  - unfold getCurrentPhase, getCurrentPhase_in.
    destruct (find (inRange progress) phases) as [q |] eqn:F.
    + exists q. split; [reflexivity |]. apply find_some in F. tauto.
    + exists finalPhase. split; [reflexivity |]. cbn. tauto.
  - exact Hcur.
  - exact Hnone.
  - intro Heq. apply Hnone. intros p Hp Sp.
    apply status_current_iff, inRange_spec in Sp.
    assert (Hend : (inject_Z (endProgress p) <= 100)%Q).
    { unfold inject_Z. phase_cases Hp; cbn [endProgress]; lra. }
    lra.
Qed.

(** At progress 45 the generation phase is the current one. *)
Lemma phase_status_classification_witness :
  getCurrentPhase 45 =
  Some {| id := "generation"; name := "Test Generation";
          description := "AI generating unit tests";
          startProgress := 30; endProgress := 70; icon := Play |}.
Proof.
  assert (H0 : (0 <= 45)%Q) by (vm_compute; discriminate).
  assert (H100 : (45 <= 100)%Q) by (vm_compute; discriminate).
  destruct (phase_status_classification 45 H0 H100)
    as [_ [_ [_ [_ [Hcur _]]]]].
  apply Hcur.
  - cbn. tauto.
  - reflexivity.
Defined.

End ProgressTrackerFacts.

(** ** Part III: further properties *)

(** *** The progress tracker, as the progress moves *)

Section ProgressTrackerOrder.
Import ProgressTracker.

Ltac each_phase Hin :=
  cbn in Hin;
  repeat (destruct Hin as [<- | Hin]; [| try contradiction]).

Lemma geq_false (a b : Q) : geq a b = false <-> (a < b)%Q.
Proof.
  rewrite <- lt_spec. unfold lt, geq.
  destruct (Qle_bool b a); cbn; split; congruence.
Qed.

Lemma inRange_false (x : Q) (p : Phase) :
  inRange x p = false <->
  (x < inject_Z (startProgress p) \/ inject_Z (endProgress p) <= x)%Q.
Proof.
  unfold inRange. rewrite andb_false_iff, geq_false.
  unfold lt. rewrite negb_false_iff, Qle_bool_iff. reflexivity.
Qed.

Lemma status_pending_iff (x : Q) (p : Phase) :
  getPhaseStatus x p = pending <->
  (x < inject_Z (endProgress p) /\ x < inject_Z (startProgress p))%Q.
Proof.
  unfold getPhaseStatus.
  destruct (geq x (inject_Z (endProgress p))) eqn:G.
  - apply geq_spec in G. split; [discriminate | lra].
  - apply geq_false in G.
    destruct (inRange x p) eqn:R.
    + apply inRange_spec in R. split; [discriminate | lra].
    + apply inRange_false in R. split; [intros _ | reflexivity]. lra.
Qed.

(** X1.  A phase never moves backwards: when the progress grows, the
    status of a phase stays or advances from pending to current to
    completed. *)
Theorem phase_status_monotone (x y : Q) (p : Phase) :
  (x <= y)%Q ->
  (rank (getPhaseStatus x p) <= rank (getPhaseStatus y p))%nat.
Proof.
  intro Hxy.
  destruct (getPhaseStatus x p) eqn:Sx; cbn [rank].
  - apply status_completed_iff in Sx.
    assert (Sy : getPhaseStatus y p = completed)
      by (apply status_completed_iff; lra).
    rewrite Sy. cbn. lia.
  - apply status_current_iff, inRange_spec in Sx.
    destruct (getPhaseStatus y p) eqn:Sy; cbn [rank]; try lia.
    apply status_pending_iff in Sy. lra.
  - lia.
Qed.

(** From generation running at 45 to generation done at 70. *)
Lemma phase_status_monotone_witness :
  (rank (getPhaseStatus 45 (nth 3 phases finalPhase))
   <= rank (getPhaseStatus 70 (nth 3 phases finalPhase)))%nat.
Proof.
  apply phase_status_monotone. vm_compute. discriminate.
Defined.

Lemma phases_in_order (i j : nat) (p q : Phase) :
  (i < j)%nat -> nth_error phases i = Some p -> nth_error phases j = Some q ->
  (endProgress p <= startProgress q)%Z.
Proof.
  intros Hij Hp Hq.
  destruct i as [| [| [| [| [| [| i]]]]]];
    destruct j as [| [| [| [| [| [| j]]]]]];
    try lia; cbn in Hp, Hq;
    try (destruct i; discriminate Hp); try (destruct j; discriminate Hq);
    injection Hp as <-; injection Hq as <-; cbn; lia.
Qed.

Lemma phase_range_nonempty (p : Phase) :
  In p phases -> (startProgress p < endProgress p)%Z.
Proof. intro H. each_phase H; cbn; lia. Qed.

(** X2.  Along the table the statuses are in order: every phase listed
    before a phase that is current or completed is itself completed, so
    the markers read completed, then at most one current, then
    pending. *)
Theorem phases_before_current_completed
  (progress : Q) (i j : nat) (p q : Phase) :
  (i < j)%nat ->
  nth_error phases i = Some p -> nth_error phases j = Some q ->
  (getPhaseStatus progress q <> pending ->
   getPhaseStatus progress p = completed)
  /\ (rank (getPhaseStatus progress q) <= rank (getPhaseStatus progress p))%nat.
Proof.
  intros Hij Hp Hq.
  pose proof (phases_in_order i j p q Hij Hp Hq) as Hord.
  pose proof (phase_range_nonempty q (nth_error_In _ _ Hq)) as Hq'.
  assert (Hz : (inject_Z (endProgress p) <= inject_Z (startProgress q))%Q)
    by (rewrite <- Zle_Qle; exact Hord).
  assert (Hz' : (inject_Z (startProgress q) < inject_Z (endProgress q))%Q)
    by (rewrite <- Zlt_Qlt; exact Hq').
  assert (Hfirst : getPhaseStatus progress q <> pending ->
                   getPhaseStatus progress p = completed).
  { intro Hn. apply status_completed_iff.
    destruct (getPhaseStatus progress q) eqn:Sq; [| | congruence].
    - apply status_completed_iff in Sq. lra.
    - apply status_current_iff, inRange_spec in Sq. lra. }
  split; [exact Hfirst |].
  destruct (getPhaseStatus progress q) eqn:Sq; cbn [rank].
  - rewrite Hfirst by discriminate. cbn. lia.
  - rewrite Hfirst by discriminate. cbn. lia.
  - lia.
Qed.

(** At 45 the generation phase is current, so cloning is completed. *)
Lemma phases_before_current_completed_witness :
  getPhaseStatus 45 (nth 1 phases finalPhase) = completed.
Proof.
  apply (phases_before_current_completed 45 1 3
           (nth 1 phases finalPhase) (nth 3 phases finalPhase)).
  - lia.
  - reflexivity.
  - reflexivity.
  - vm_compute. discriminate.
Defined.

(** X3.  [getCurrentPhase] names Finalization exactly when the progress
    is below 0 or at least 90: between 90 and 100 because that is its
    range, and outside [0,100) as the fallback; below 0 it does so while
    every phase is still pending. *)
Theorem current_phase_is_final_iff (progress : Q) :
  (getCurrentPhase progress = Some finalPhase
   <-> (progress < 0 \/ 90 <= progress)%Q)
  /\ ((progress < 0)%Q ->
      forall p, In p phases -> getPhaseStatus progress p = pending).
Proof.
  assert (Hfind : forall q, find (inRange progress) phases = Some q ->
                    In q phases
                    /\ (inject_Z (startProgress q) <= progress)%Q
                    /\ (progress < inject_Z (endProgress q))%Q).
  { intros q F. apply find_some in F. destruct F as [Hin R].
    apply inRange_spec in R. tauto. }
  split.
  - unfold getCurrentPhase, getCurrentPhase_in. split.
    + intro H.
      destruct (Qlt_le_dec progress 0) as [Hneg | H0]; [left; exact Hneg |].
      destruct (Qlt_le_dec progress 90) as [H90 | H90]; [| right; exact H90].
      exfalso.
      destruct (find (inRange progress) phases) as [q |] eqn:F.
      * injection H as ->. destruct (Hfind _ eq_refl) as [_ [Hs _]].
        unfold inject_Z in Hs. cbn in Hs. lra.
      * destruct (inRange_exists progress H0 ltac:(lra)) as [p [Hp R]].
        pose proof (find_none _ _ F p Hp). congruence.
    + intro H.
      destruct (find (inRange progress) phases) as [q |] eqn:F;
        [| reflexivity].
      destruct (Hfind _ eq_refl) as [Hin [Hs He]]. f_equal.
      unfold inject_Z in Hs, He.
      each_phase Hin; cbn [startProgress endProgress] in Hs, He;
        try reflexivity; lra.
  - intros Hneg p Hp. apply status_pending_iff.
    unfold inject_Z. each_phase Hp; cbn [startProgress endProgress]; lra.
Qed.

End ProgressTrackerOrder.

(** *** The analysis form: the other rules and the submission *)

Section AnalysisFormRules.
Import Js RegExp ErrorMessage AnalysisForm.

Lemma apiKeyPattern_spec (key : string) :
  test apiKeyPattern key = true <-> OpenRouterKey key.
Proof.
  rewrite test_spec. unfold apiKeyPattern, OpenRouterKey.
  rewrite matches_Cat. split.
  - intros [s1 [s2 [-> [H1 H2]]]]. apply matches_Lit in H1. subst s1.
    apply matches_Plus_Class in H2. exists s2. tauto.
  - intros [suffix [-> H]]. exists "sk-or-v1-", suffix.
    split; [reflexivity |]. split; [apply matches_Lit; reflexivity |].
    apply matches_Plus_Class. exact H.
Qed.

Lemma failed_validation_sends_nothing
  (server : AnalysisRequest -> Reply) (i : FormInputs) :
  noErrors (validate i) = false -> requestsOf (handleSubmit server i) = [].
Proof. intro H. unfold handleSubmit. rewrite H. reflexivity. Qed.

(** X4.  A request is sent only with an API key of the form [sk-or-v1-]
    followed by letters and digits, and carries the key as entered; an
    empty key is refused as required, any other key as invalid, and in
    both cases nothing is sent. *)
Theorem api_key_rule (server : AnalysisRequest -> Reply) (i : FormInputs) :
  (forall request, In request (requestsOf (handleSubmit server i)) ->
     OpenRouterKey (apiKeyInput i) /\ api_key request = apiKeyInput i)
  /\ (apiKeyInput i = "" ->
      apiKeyError (validate i) = Some "API key is required"
      /\ requestsOf (handleSubmit server i) = [])
  /\ (apiKeyInput i <> "" -> ~ OpenRouterKey (apiKeyInput i) ->
      apiKeyError (validate i)
      = Some "Please enter a valid OpenRouter API key"
      /\ requestsOf (handleSubmit server i) = []).
Proof.
  assert (Hnone : forall msg, apiKeyError (validate i) = Some msg ->
                    requestsOf (handleSubmit server i) = []).
  { intros msg E. apply failed_validation_sends_nothing.
    destruct (noErrors (validate i)) eqn:V; [| reflexivity].
    apply noErrors_spec in V. destruct V as [_ [V _]]. congruence. }
  split; [| split].
  - unfold handleSubmit. destruct (noErrors (validate i)) eqn:V;
      [| intros request []].
    cbn [requestsOf]. rewrite onSubmit_requests. intros request [<- | []].
    split; [| reflexivity].
    apply noErrors_spec in V. destruct V as [_ [V _]].
    cbn [validate apiKeyError] in V. unfold validateField in V.
    destruct (apiKeyInput i =? ""); [discriminate V |]. cbn in V.
    apply apiKeyPattern_spec.
    destruct (test apiKeyPattern (apiKeyInput i)); [reflexivity | discriminate].
  - intro E.
    assert (Hm : apiKeyError (validate i) = Some "API key is required")
      by (cbn [validate apiKeyError]; rewrite E; reflexivity).
    split; [exact Hm | exact (Hnone _ Hm)].
  - intros Hne Hbad.
    assert (Hm : apiKeyError (validate i)
                 = Some "Please enter a valid OpenRouter API key").
    { cbn [validate apiKeyError]. unfold validateField.
      apply String.eqb_neq in Hne. rewrite Hne. cbn.
      destruct (test apiKeyPattern (apiKeyInput i)) eqn:T; [| reflexivity].
      apply apiKeyPattern_spec in T. destruct (Hbad T). }
    split; [exact Hm | exact (Hnone _ Hm)].
Qed.

(** A key with a dash in its tail is refused as invalid. *)
Lemma api_key_rule_witness :
  apiKeyError
    (validate {| repositoryUrlInput := "https://github.com/octocat/hello";
                 apiKeyInput := "sk-or-v1-abc-123";
                 advancedInputs := None; hiddenInputs := None |})
  = Some "Please enter a valid OpenRouter API key".
Proof.
  destruct (api_key_rule (fun _ => Resolved "t1")
              {| repositoryUrlInput := "https://github.com/octocat/hello";
                 apiKeyInput := "sk-or-v1-abc-123";
                 advancedInputs := None; hiddenInputs := None |})
    as [_ [_ Hbad]].
  apply Hbad.
  - discriminate.
  - intro H. apply apiKeyPattern_spec in H. vm_compute in H. discriminate H.
Defined.

Lemma countChar_app (c : ascii) (a b : string) :
  countChar c (a ++ b) = (countChar c a + countChar c b)%nat.
Proof.
  induction a as [| x a IH]; cbn; [reflexivity |]. rewrite IH. lia.
Qed.

Lemma countChar_notSlash (s : string) :
  allChars notSlash s = true -> countChar "/" s = 0%nat.
Proof.
  induction s as [| x s IH]; cbn; [reflexivity |].
  intro H. apply andb_true_iff in H. destruct H as [Hx Hs].
  unfold notSlash in Hx. apply negb_true_iff in Hx. rewrite Hx, (IH Hs).
  reflexivity.
Qed.

(** X5.  The repository field tells an empty address from a malformed
    one by its message, and an address that passes has exactly the four
    slashes of [https://github.com/<owner>/<repo>]: a trailing slash or a
    path below the repository is refused. *)
Theorem repository_url_messages (i : FormInputs) :
  (repositoryUrlInput i = "" ->
   repositoryUrlError (validate i) = Some "Repository URL is required")
  /\ (repositoryUrlInput i <> "" ->
      ~ GitHubRepositoryUrl (repositoryUrlInput i) ->
      repositoryUrlError (validate i)
      = Some "Please enter a valid GitHub repository URL")
  /\ (repositoryUrlError (validate i) = None ->
      countChar "/" (repositoryUrlInput i) = 4%nat).
Proof.
  split; [| split].
  - intro E. cbn [validate repositoryUrlError]. rewrite E. reflexivity.
  - intros Hne Hbad. cbn [validate repositoryUrlError]. unfold validateField.
    apply String.eqb_neq in Hne. rewrite Hne. cbn.
    destruct (test repositoryUrlPattern (repositoryUrlInput i)) eqn:T;
      [| reflexivity].
    apply repositoryUrlPattern_spec in T. destruct (Hbad T).
  - intro V. cbn [validate repositoryUrlError] in V.
    apply repositoryUrl_valid_iff in V.
    destruct V as [owner [repo [-> [[_ Ho] [_ Hr]]]]].
    rewrite !countChar_app, (countChar_notSlash _ Ho),
      (countChar_notSlash _ Hr).
    reflexivity.
Qed.

(** A path below the repository is refused as malformed. *)
Lemma repository_url_messages_witness :
  repositoryUrlError
    (validate
       {| repositoryUrlInput := "https://github.com/octocat/hello/tree/main";
          apiKeyInput := "sk-or-v1-abc123";
          advancedInputs := None; hiddenInputs := None |})
  = Some "Please enter a valid GitHub repository URL".
Proof.
  destruct (repository_url_messages
       {| repositoryUrlInput := "https://github.com/octocat/hello/tree/main";
          apiKeyInput := "sk-or-v1-abc123";
          advancedInputs := None; hiddenInputs := None |}) as [_ [Hbad _]].
  apply Hbad.
  - discriminate.
  - intro H. apply repositoryUrlPattern_spec in H. vm_compute in H.
    discriminate H.
Defined.

(** X6.  With the advanced section open, a blank number field never
    fails; a target coverage above 100 or below 0, and a maximum of
    files below 1, fail with the message of the bound they break, and
    then nothing is sent.  For text other than a plain integer it is the
    number the browser reads from it that is held against the bounds. *)
Theorem number_field_errors
  (server : AnalysisRequest -> Reply) (i : FormInputs) (a : AdvancedInputs) :
  advancedInputs i = Some a ->
  targetCoverageError (validate i)
  = match targetCoverageInput a with
    | Blank => None
    | Entered n =>
        if (100 <? n)%Z then Some "Coverage must be at most 100%"
        else if (n <? 0)%Z then Some "Coverage must be at least 0%"
        else None
    | Typed text number =>
        if text =? "" then None
        else if ltQ (inject_Z 100) number
             then Some "Coverage must be at most 100%"
        else if ltQ number (inject_Z 0)
             then Some "Coverage must be at least 0%"
        else None
    end
  /\ maxFilesError (validate i)
     = match maxFilesInput a with
       | Blank => None
       | Entered n =>
           if (n <? 1)%Z then Some "Max files must be at least 1" else None
       | Typed text number =>
           if text =? "" then None
           else if ltQ number (inject_Z 1)
                then Some "Max files must be at least 1"
           else None
       end
  /\ (targetCoverageError (validate i) <> None
      \/ maxFilesError (validate i) <> None ->
      requestsOf (handleSubmit server i) = []).
Proof.
  intro Ha. split; [| split].
  - cbn [validate targetCoverageError]. rewrite Ha.
    destruct (targetCoverageInput a) as [| n | text number];
      [reflexivity | |].
    + cbn [inputValue valueAsNumber]. unfold validateField.
      pose proof (string_of_Z_nonempty n) as Hne.
      apply String.eqb_neq in Hne. rewrite Hne.
      cbn [targetCoverageOptions max min pattern exceeds].
      rewrite !ltQ_inject.
      destruct (100 <? n)%Z; [reflexivity |].
      destruct (n <? 0)%Z; reflexivity.
    + cbn [inputValue valueAsNumber]. unfold validateField.
      destruct (text =? ""); [reflexivity |].
      cbn [targetCoverageOptions max min pattern exceeds].
      destruct (ltQ (inject_Z 100) number); [reflexivity |].
      destruct (ltQ number (inject_Z 0)); reflexivity.
  - cbn [validate maxFilesError]. rewrite Ha.
    destruct (maxFilesInput a) as [| n | text number]; [reflexivity | |].
    + cbn [inputValue valueAsNumber]. unfold validateField.
      pose proof (string_of_Z_nonempty n) as Hne.
      apply String.eqb_neq in Hne. rewrite Hne.
      cbn [maxFilesOptions max min pattern exceeds].
      rewrite !ltQ_inject.
      destruct (n <? 1)%Z; reflexivity.
    + cbn [inputValue valueAsNumber]. unfold validateField.
      destruct (text =? ""); [reflexivity |].
      cbn [maxFilesOptions max min pattern exceeds].
      destruct (ltQ number (inject_Z 1)); reflexivity.
  - intro H. apply failed_validation_sends_nothing.
    destruct (noErrors (validate i)) eqn:V; [| reflexivity].
    apply noErrors_spec in V. destruct V as [_ [_ [Vc Vm]]].
    destruct H as [H | H]; congruence.
Qed.

(** A target coverage of 150 is refused for its maximum. *)
Lemma number_field_errors_witness :
  targetCoverageError
    (validate
       {| repositoryUrlInput := "https://github.com/octocat/hello";
          apiKeyInput := "sk-or-v1-abc123";
          advancedInputs :=
            Some {| includeDependenciesChecked := true;
                    generateMocksChecked := true;
                    targetCoverageInput := Entered 150;
                    maxFilesInput := Blank |};
          hiddenInputs := None |})
  = Some "Coverage must be at most 100%".
Proof.
  destruct (number_field_errors (fun _ => Resolved "t1")
       {| repositoryUrlInput := "https://github.com/octocat/hello";
          apiKeyInput := "sk-or-v1-abc123";
          advancedInputs :=
            Some {| includeDependenciesChecked := true;
                    generateMocksChecked := true;
                    targetCoverageInput := Entered 150;
                    maxFilesInput := Blank |};
          hiddenInputs := None |}
       _ eq_refl) as [Hc _].
  exact Hc.
Defined.

(** A form closed again after 150 and 0 were entered sends them
    unchecked; an open form with [1e2] and [0.9e1] typed passes its
    rules (the numbers are 100 and 9) and sends 1 and 0. *)
Lemma request_options_witness :
  (target_coverage (buildRequest (collect closedAgainForm)) = Int 150
   /\ max_files (buildRequest (collect closedAgainForm)) = Some (Int 0))
  /\ (target_coverage (buildRequest (collect exponentForm)) = Int 1
      /\ max_files (buildRequest (collect exponentForm)) = Some (Int 0)).
Proof.
  split.
  - destruct (request_options (fun _ => Resolved "t1") closedAgainForm
                (buildRequest (collect closedAgainForm)))
      as [[_ [_ [Hc Hm]]] _].
    + vm_compute. left. reflexivity.
    + rewrite Hc, Hm. split; reflexivity.
  - destruct (request_options (fun _ => Resolved "t1") exponentForm
                (buildRequest (collect exponentForm)))
      as [[_ [_ [Hc Hm]]] _].
    + vm_compute. left. reflexivity.
    + rewrite Hc, Hm. split; reflexivity.
Defined.

(** X8.  Whatever the server answers, [onSubmit] first raises the
    loading flag and posts the request to [/analyze], and it ends with
    the flag lowered, also when its error handler throws; it navigates
    to the analysis of the new task exactly when the request succeeded,
    and then shows no error toast. *)
Theorem onSubmit_trace (server : AnalysisRequest -> Reply) (data : FormData) :
  (exists rest,
     onSubmit server data
     = SetIsLoading true :: Post "/analyze" (buildRequest data) :: rest)
  /\ loadingAfter (onSubmit server data) = Some false
  /\ navigationsOf (onSubmit server data)
     = match server (buildRequest data) with
       | Resolved task_id => ["/analysis/" ++ task_id]
       | Rejected _ => []
       end
  /\ (navigationsOf (onSubmit server data) <> [] ->
      filter isErrorToast (onSubmit server data) = []).
Proof.
  unfold onSubmit. cbn [app].
  destruct (server (buildRequest data)) as [task_id | err].
  - split; [eauto |]. split; [reflexivity |]. split; [reflexivity |].
    intros _. reflexivity.
  - destruct (deriveErrorMessage "Failed to start analysis" err)
      as [text | exn].
    + split; [eauto |]. split; [reflexivity |]. split; [reflexivity |].
      intro H. destruct (H eq_refl).
    + split; [eauto |]. split; [reflexivity |]. split; [reflexivity |].
      intro H. destruct (H eq_refl).
Qed.

End AnalysisFormRules.

(** *** The error message: array bodies *)

Section ErrorMessageArrays.
Import Js ErrorMessage.

Lemma elementMessage_text (v : Value) (t : string) :
  hasText v t -> elementMessage v = Normal (Str t).
Proof.
  intro H. destruct H as [t | props t Hm Hne | props Hm];
    unfold elementMessage; cbn [isString get bind].
  - reflexivity.
  - rewrite Hm. unfold orElse. cbn [truthy].
    apply String.eqb_neq in Hne. rewrite Hne. reflexivity.
  - unfold orElse. rewrite Hm. reflexivity.
Qed.

Lemma mapM_elementMessage_text (elems : list Value) (texts : list string) :
  Forall2 hasText elems texts ->
  mapM elementMessage elems = Normal (map Str texts).
Proof.
  induction 1 as [| v t elems texts Hv _ IH]; cbn [mapM map];
    [reflexivity |].
  rewrite (elementMessage_text v t Hv), IH. reflexivity.
Qed.

Lemma join_texts (sep : string) (texts : list string) :
  join sep (map Str texts) = String.concat sep texts.
Proof.
  unfold join. rewrite map_map. f_equal.
  rewrite <- (map_id texts) at 2. apply map_ext. reflexivity.
Qed.

(** X9.  For a body that is an array of strings and of objects, the
    message is the texts of its elements joined by a comma and a space,
    where an object without a [msg] stands for "Validation error"; for an
    empty array the message is the empty string. *)
Theorem array_body_joined
  (default : string) (elems : list Value) (texts : list string)
  (msg : Value) :
  Forall2 hasText elems texts ->
  deriveErrorMessage default
    {| response_data := Some (Array elems); message := msg |}
  = Normal (Str (String.concat ", " texts)).
Proof.
  intro H. unfold deriveErrorMessage, responseData.
  cbn [response_data truthy isString get bind].
  rewrite (mapM_elementMessage_text elems texts H). cbn [bind].
  rewrite join_texts. reflexivity.
Qed.

(** A string, an object with a message and an object without one. *)
Lemma array_body_joined_witness :
  deriveErrorMessage "Failed to start analysis"
    {| response_data :=
         Some (Array [Str "bad address";
                      Object [("loc", Str "body");
                              ("msg", Str "field required")];
                      Object [("loc", Str "query")]]);
       message := Str "Request failed with status code 422" |}
  = Normal (Str "bad address, field required, Validation error").
Proof.
  apply (array_body_joined "Failed to start analysis"
           [Str "bad address";
            Object [("loc", Str "body"); ("msg", Str "field required")];
            Object [("loc", Str "query")]]
           ["bad address"; "field required"; "Validation error"]).
  constructor; [apply TextString |].
  constructor; [apply TextMsg; [reflexivity | discriminate] |].
  constructor; [apply TextNoMsg; reflexivity | constructor].
Defined.

Lemma mapM_elementMessage_throws (elems : list Value) :
  forallb notNullish elems = false ->
  mapM elementMessage elems = Throw "TypeError".
Proof.
  induction elems as [| v elems IH]; cbn [forallb mapM]; [discriminate |].
  intro H. apply andb_false_iff in H.
  destruct (notNullish v) eqn:Hv.
  - destruct H as [H | H]; [discriminate H |].
    destruct (elementMessage_defined v Hv) as [m ->]. cbn [bind].
    rewrite (IH H). reflexivity.
  - destruct v; try discriminate Hv; reflexivity.
Qed.

(** X10.  A [null] among the elements of an array body makes the
    cascade throw instead of yielding a message; the form's handler then
    shows no error toast, and still lowers its loading flag. *)
Theorem null_element_throws
  (default : string) (elems : list Value) (msg : Value)
  (server : AnalysisForm.AnalysisRequest -> AnalysisForm.Reply)
  (data : AnalysisForm.FormData) :
  forallb notNullish elems = false ->
  server (AnalysisForm.buildRequest data)
  = AnalysisForm.Rejected
      {| response_data := Some (Array elems); message := msg |} ->
  deriveErrorMessage default
    {| response_data := Some (Array elems); message := msg |}
  = Throw "TypeError"
  /\ AnalysisForm.onSubmit server data
     = [AnalysisForm.SetIsLoading true;
        AnalysisForm.Post "/analyze" (AnalysisForm.buildRequest data);
        AnalysisForm.ConsoleError;
        AnalysisForm.SetIsLoading false;
        AnalysisForm.Uncaught "TypeError"].
Proof.
  intros Hnull Hs.
  assert (Hd : forall d, deriveErrorMessage d
                 {| response_data := Some (Array elems); message := msg |}
               = Throw "TypeError").
  { intro d. unfold deriveErrorMessage, responseData.
    cbn [response_data truthy isString get bind].
    rewrite (mapM_elementMessage_throws elems Hnull). reflexivity. }
  split; [apply Hd |].
  unfold AnalysisForm.onSubmit. rewrite Hs, Hd. reflexivity.
Qed.

(** An array body whose second element is [null]. *)
Lemma null_element_throws_witness :
  deriveErrorMessage "Failed to start analysis"
    {| response_data := Some (Array [Str "bad address"; Null]);
       message := Str "Request failed with status code 422" |}
  = Throw "TypeError".
Proof.
  apply (null_element_throws "Failed to start analysis"
           [Str "bad address"; Null]
           (Str "Request failed with status code 422")
           (fun _ => AnalysisForm.Rejected
                       {| response_data :=
                            Some (Array [Str "bad address"; Null]);
                          message :=
                            Str "Request failed with status code 422" |})
           (AnalysisForm.collect AnalysisForm.filledForm)).
  - reflexivity.
  - reflexivity.
Defined.

(** A body whose [detail] is a string, as a refused request has. *)
Lemma deriveErrorMessage_text_witness :
  exists t,
    deriveErrorMessage "An error occurred while loading the task"
      {| response_data := Some (Object [("detail", Str "Task not found")]);
         message := Str "Request failed with status code 404" |}
    = Normal (Str t).
Proof.
  apply deriveErrorMessage_text; reflexivity.
Defined.

End ErrorMessageArrays.

(** *** The results page: the file list and the download *)

Section ResultsPageMore.
Import Js ErrorMessage ResultsPage.

(** X12.  The file list of a language is shown exactly when the language
    has files; it shows the first five at most, in order, and the count
    behind "and N more files" is what is left, so the rows shown and the
    files announced add up to the files generated; the line appears
    exactly when there are more than five. *)
Theorem file_preview_accounts_for_all (d : LanguageTests) :
  (filePreview d = None <-> numberOfFiles d = 0%Z)
  /\ forall pv, filePreview d = Some pv ->
       exists l,
         files d = Some l
         /\ (shownRows pv ++ skipn 5 l)%list = l
         /\ (List.length (shownRows pv) <= 5)%nat
         /\ (Z.of_nat (List.length (shownRows pv)) + hiddenFiles pv
             = numberOfFiles d)%Z
         /\ (moreFiles pv = None <-> (numberOfFiles d <= 5)%Z)
         /\ (0 <= hiddenFiles pv)%Z.
Proof.
  unfold filePreview, numberOfFiles.
  destruct (files d) as [l |]; [| split; [tauto | discriminate]].
  destruct (0 <? Z.of_nat (List.length l))%Z eqn:E0.
  - apply Z.ltb_lt in E0. split; [split; [discriminate | lia] |].
    pose proof (length_firstn 5 l) as Hlen.
    pose proof (firstn_skipn 5 l) as Hsplit.
    set (shown := firstn 5 l) in *.
    intros pv H. injection H as <-. exists l.
    cbv [shownRows moreFiles hiddenFiles].
    split; [reflexivity |]. split; [exact Hsplit |].
    split; [rewrite Hlen; lia |].
    destruct (5 <? Z.of_nat (List.length l))%Z eqn:E5.
    + apply Z.ltb_lt in E5. rewrite Hlen.
      split; [lia |]. split; [split; [discriminate | lia] | lia].
    + apply Z.ltb_ge in E5. rewrite Hlen.
      split; [lia |]. split; [split; [lia | reflexivity] | lia].
  - apply Z.ltb_ge in E0. split; [split; [lia | reflexivity] | discriminate].
Qed.

Lemma downloadingAfter_end
  (type : string) (events : list Event) (b : bool) :
  downloadingAfter type (events ++ [SetDownloading type b]) = Some b.
Proof.
  unfold downloadingAfter. rewrite fold_left_app. cbn.
  rewrite String.eqb_refl. reflexivity.
Qed.

(** X13.  A download asks the server once, for the path of its kind, and
    saves a file exactly when the server sends the archive; on an error
    nothing is saved.  The kind asked for and the name saved agree: tests
    for [tests], the coverage report for any other kind.  In every case
    the kind's [downloading] flag ends lowered. *)
Theorem handleDownload_trace
  (server : string -> Reply) (taskId type : string) :
  requested (handleDownload server taskId type)
  = [downloadPath type taskId]
  /\ savedAs (handleDownload server taskId type)
     = match server (downloadPath type taskId) with
       | Blob _ => [downloadFilename type taskId]
       | Rejected _ => []
       end
  /\ (downloadPath type taskId, downloadFilename type taskId)
     = (if type =? "tests"
        then ("/download/" ++ taskId ++ "/tests",
              "test_files_" ++ taskId ++ ".zip")
        else ("/download/" ++ taskId ++ "/coverage",
              "coverage_report_" ++ taskId ++ ".zip"))
  /\ downloadingAfter type (handleDownload server taskId type) = Some false.
Proof.
  assert (Hflag : forall t b st,
            (if t =? t then Some b else st) = Some b :> option bool)
    by (intros t b st; rewrite String.eqb_refl; reflexivity).
  split; [| split; [| split]].
  - unfold handleDownload. cbn [app requested flat_map].
    destruct (server (downloadPath type taskId)) as [bytes | err];
      [reflexivity |].
    destruct (deriveErrorMessage _ err); reflexivity.
  - unfold handleDownload. cbn [app savedAs flat_map].
    destruct (server (downloadPath type taskId)) as [bytes | err];
      [reflexivity |].
    destruct (deriveErrorMessage _ err); reflexivity.
  - unfold downloadPath, downloadFilename.
    destruct (type =? "tests"); reflexivity.
  - unfold handleDownload, downloadingAfter. cbn [app fold_left].
    destruct (server (downloadPath type taskId)) as [bytes | err].
    + cbn [fold_left]. apply Hflag.
    + destruct (deriveErrorMessage _ err); cbn [fold_left]; apply Hflag.
Qed.

End ResultsPageMore.

(** *** The status page: what it does while the task runs *)

Section AnalysisPageLog.
Import Js ErrorMessage AnalysisPage.

Variable taskId : string.

Lemma run_survive (answers : list Response) :
  forall p, polling taskId p ->
    forallb (fun r => negb (terminal r) && survives r) answers = true ->
    polling taskId (fold_left (poll taskId) answers p)
    /\ log (fold_left (poll taskId) answers p)
       = (repeat (GetStatus ("/status/" ++ taskId)) (List.length answers)
          ++ log p)%list.
Proof.
  induction answers as [| r answers IH]; intros p Hp Hall; cbn [fold_left];
    [auto |].
  cbn in Hall. apply andb_true_iff in Hall. destruct Hall as [Hr Hall].
  apply andb_true_iff in Hr. destruct Hr as [Ht Hs].
  apply negb_true_iff in Ht.
  destruct (poll_survive taskId p r Hp Ht Hs) as [Hp' Hlog].
  destruct (IH _ Hp' Hall) as [Hp'' Hlog'].
  split; [exact Hp'' |]. rewrite Hlog', Hlog.
  cbn [List.length repeat].
  change (GetStatus ("/status/" ++ taskId) :: log p)
    with ([GetStatus ("/status/" ++ taskId)] ++ log p)%list.
  rewrite app_assoc, <- repeat_cons. reflexivity.
Qed.

(** X14.  As long as every answer is one the page can show and none
    reports [completed] or [failed], the page asks for
    [/status/<taskId>] once per period and does nothing else: it stays
    mounted, keeps its interval, shows no toast and navigates nowhere.
    Request errors whose message is text are among such answers. *)
Theorem polling_continues_until_terminal (answers : list Response) :
  forallb (fun r => negb (terminal r) && survives r) answers = true ->
  log (run taskId answers)
  = repeat (GetStatus ("/status/" ++ taskId)) (List.length answers)
  /\ requests (run taskId answers) = List.length answers
  /\ notices (run taskId answers) = []
  /\ pollingInterval (run taskId answers) = Some 2000%nat
  /\ mounted (run taskId answers) = true.
Proof.
  intro Hall. unfold run.
  destruct (run_survive answers mount (polling_mount taskId) Hall)
    as [[Hm Hi _ _ _] Hlog].
  cbn [log mount] in Hlog. rewrite app_nil_r in Hlog.
  split; [exact Hlog |]. split; [| split; [| split; [exact Hi | exact Hm]]].
  - unfold requests. rewrite Hlog. apply requests_repeat.
  - unfold notices. rewrite Hlog. clear.
    induction (List.length answers) as [| n IH]; [reflexivity | exact IH].
Qed.

(** X15.  When a terminal answer reaches a page that still polls, the
    page reacts once: it switches the interval off and shows one toast,
    the success toast followed by the navigation to the results for
    [completed], the error toast alone for [failed]; before and after
    that it only requested the status, once per answer up to the
    terminal one. *)
Theorem terminal_answer_handled_once
  (before : list Response) (r : Response) (later : list Response) :
  alive (run taskId before) = true ->
  terminal r = true ->
  log (run taskId (before ++ r :: later))
  = (reaction taskId r
     ++ repeat (GetStatus ("/status/" ++ taskId))
          (S (List.length before)))%list.
Proof.
  intros Hb Hr. destruct (alive_run taskId before Hb) as [Hp Hreq].
  unfold run in *. rewrite fold_left_app. cbn [fold_left].
  set (p := fold_left (poll taskId) before mount) in *.
  destruct (poll_terminal taskId p r Hp Hr) as [Hoff [_ Hlog]].
  rewrite (run_stopped taskId later _ Hoff), Hlog.
  destruct Hp as [_ _ _ _ Hplog]. rewrite Hplog, Hreq. reflexivity.
Qed.

End AnalysisPageLog.

(** Three answers without a terminal status, one of them a lost
    connection: three requests and nothing else. *)
Lemma polling_continues_until_terminal_witness :
  AnalysisPage.log
    (AnalysisPage.run "42"
       [AnalysisPage.answer "pending" 0;
        AnalysisPage.networkError;
        AnalysisPage.answer "running" 30])
  = repeat (AnalysisPage.GetStatus "/status/42") 3.
Proof.
  apply (polling_continues_until_terminal "42"
           [AnalysisPage.answer "pending" 0;
            AnalysisPage.networkError;
            AnalysisPage.answer "running" 30]).
  reflexivity.
Defined.

(** A task seen running and then failed: two requests, the interval
    switched off, one error toast, no navigation. *)
Lemma terminal_answer_handled_once_witness :
  AnalysisPage.log
    (AnalysisPage.run "42"
       ([AnalysisPage.answer "running" 30]
        ++ AnalysisPage.answer "failed" 30
        :: [AnalysisPage.answer "running" 40]))
  = [AnalysisPage.ToastError "Analysis failed. Please try again.";
     AnalysisPage.SetPollingInterval None;
     AnalysisPage.GetStatus "/status/42";
     AnalysisPage.GetStatus "/status/42"].
Proof.
  apply (terminal_answer_handled_once "42"
           [AnalysisPage.answer "running" 30]
           (AnalysisPage.answer "failed" 30)
           [AnalysisPage.answer "running" 40]); reflexivity.
Defined.

(** *** The status page: what it shows *)

Section AnalysisPageView.
Import Js ErrorMessage AnalysisPage.

Variable taskId : string.

Lemma effectBody_keeps (p : Page) :
  data (effectBody taskId p) = data p /\ error (effectBody taskId p) = error p.
Proof.
  unfold effectBody. destruct (statusOf p) as [st |]; [| auto].
  destruct (st =? "completed"); [cbn; auto |].
  destruct (st =? "failed"); cbn; auto.
Qed.

Lemma runEffect_keeps (p : Page) :
  data (runEffect taskId p) = data p /\ error (runEffect taskId p) = error p.
Proof.
  unfold runEffect. destruct (sameDep (effectDep p) (statusOf p)); [auto |].
  match goal with |- context [effectBody taskId ?q] =>
    destruct (effectBody_keeps q) as [Hd He]; cbn [data error] in Hd, He
  end.
  auto.
Qed.

Lemma render_receive (p : Page) (r : Response) :
  render (receive taskId p r) = render (store p r).
Proof.
  unfold receive. destruct (crashed (render (store p r))); [reflexivity |].
  unfold render at 1.
  destruct (runEffect_keeps (store p r)) as [-> ->]. reflexivity.
Qed.

(** X16.  While the page polls, what it shows follows the latest answer:
    after an answer with a body, the progress tracker with that body's
    progress, step and status (0, "Initializing..." and "pending" where
    they are missing) and the error box when the body has an error
    message; after a request error, the error card with the derived
    message when that message can be shown.  When the message cannot be
    derived or is an object or holds one, the render fails, the page is
    gone and no further status request is sent. *)
Theorem page_shows_latest_answer (p : Page) (r : Response) :
  alive p = true ->
  render (poll taskId p r)
  = match r with
    | Ok body =>
        ProgressView (orZeroQ (progress_percentage body))
          (orText (current_step body) "Initializing...")
          (orText (status body) "pending")
          (match error_message body with
           | Some m => if m =? "" then None else Some m
           | None => None
           end)
    | Failed e =>
        match deriveErrorMessage "An error occurred while loading the task" e
        with
        | Normal text =>
            if renderable text then ErrorView text else RenderError
        | Throw _ => RenderError
        end
    end
  /\ (render (poll taskId p r) = RenderError ->
      forall later,
        requests (fold_left (poll taskId) later (poll taskId p r))
        = S (requests p)).
Proof.
  intro Ha.
  assert (Hview : render (poll taskId p r)
                  = render (store p r)).
  { unfold poll. rewrite Ha. rewrite render_receive.
    destruct r; reflexivity. }
  split.
  - rewrite Hview. destruct r as [body | e]; reflexivity.
  - intros Hc later.
    assert (Hs : survives r = false).
    { rewrite Hview in Hc. destruct r as [body | e]; [discriminate Hc |].
      cbn [store render error data] in Hc. cbn [survives].
      destruct (deriveErrorMessage _ e) as [text | exn]; [| reflexivity].
      destruct (renderable text); [discriminate Hc | reflexivity]. }
    destruct (poll_crash taskId p r Ha Hs) as [Hm [Hlog _]].
    rewrite (run_stopped taskId later);
      [| unfold alive; rewrite Hm; reflexivity].
    unfold requests. rewrite Hlog. reflexivity.
Qed.

End AnalysisPageView.

(** After an answer without a step the page shows the tracker at
    "Initializing..."; after a validation error, whose message is a list
    of objects, the render fails and the one request stays the only
    one. *)
Lemma page_shows_latest_answer_witness :
  AnalysisPage.render
    (AnalysisPage.poll "42" AnalysisPage.mount
       (AnalysisPage.Ok
          {| AnalysisPage.status := "pending";
             AnalysisPage.progress_percentage := 0;
             AnalysisPage.current_step := "";
             AnalysisPage.error_message := None |}))
  = AnalysisPage.ProgressView 0 "Initializing..." "pending" None
  /\ AnalysisPage.requests
       (fold_left (AnalysisPage.poll "42")
          [AnalysisPage.answer "running" 30;
           AnalysisPage.answer "completed" 100]
          (AnalysisPage.poll "42" AnalysisPage.mount
             (AnalysisPage.Failed ErrorMessage.validationError)))
     = 1%nat.
Proof.
  split.
  - destruct (page_shows_latest_answer "42" AnalysisPage.mount
                (AnalysisPage.Ok
                   {| AnalysisPage.status := "pending";
                      AnalysisPage.progress_percentage := 0;
                      AnalysisPage.current_step := "";
                      AnalysisPage.error_message := None |}) eq_refl)
      as [Hv _].
    rewrite Hv. reflexivity.
  - destruct (page_shows_latest_answer "42" AnalysisPage.mount
                (AnalysisPage.Failed ErrorMessage.validationError) eq_refl)
      as [Hv Hstop].
    apply Hstop. rewrite Hv. reflexivity.
Defined.
